(** * populate_syscad_inputs_rev2.py: reconciliation of a master datasheet
    with a SysCAD streamtable.

    Shallow embedding of [populate_syscad_inputs] (and of the helper
    [extract_syscad_params] of app.py).  A workbook is a map from sheet
    names to sheets; a sheet is the map of its non-empty cells, keyed by
    (row, column), 1-indexed as in openpyxl.  A cell read outside the map
    is [None], Python's [None]. *)

From Stdlib Require Import String Ascii ZArith QArith Qround Qabs Lqa List Sorted Lia.
From stdpp Require Import base gmap sets list strings.
Import ListNotations.
Open Scope string_scope.

(** ** Cell values *)

(** The values openpyxl yields for a cell: text, int, float (modelled by
    its exact rational value) and bool. *)
Inductive value :=
| VStr (s : string)
| VInt (z : Z)
| VFloat (q : Q)
| VBool (b : bool).

(** Python truthiness of a cell value ([if c.value], [if pname], ...);
    [None] is falsy. *)
Definition truthy (v : value) : bool :=
  match v with
  | VStr s => negb (String.eqb s "")
  | VInt z => negb (Z.eqb z 0)
  | VFloat q => negb (Qeq_bool q 0)
  | VBool b => b
  end.

Definition truthy_opt (o : option value) : bool :=
  match o with Some v => truthy v | None => false end.

(** Numeric view of a value, for Python's cross-type numeric [==]
    ([1 == 1.0 == True]). *)
Definition num_of (v : value) : option Q :=
  match v with
  | VStr _ => None
  | VInt z => Some (inject_Z z)
  | VFloat q => Some q
  | VBool b => Some (if b then 1 else 0)%Q
  end.

(** Python [==] on cell values. *)
Definition py_eq (a b : value) : bool :=
  match a, b with
  | VStr x, VStr y => String.eqb x y
  | _, _ =>
      match num_of a, num_of b with
      | Some x, Some y => Qeq_bool x y
      | _, _ => false
      end
  end.

(** Python [==] on possibly-[None] cells ([None == None] only). *)
Definition py_eq_opt (a b : option value) : bool :=
  match a, b with
  | Some x, Some y => py_eq x y
  | None, None => true
  | _, _ => false
  end.

(** [x in xs] for a Python list. *)
Definition py_in (x : value) (xs : list value) : bool :=
  existsb (py_eq x) xs.

(** [xs.index(x)]: position of the first element equal to [x]
    (only called when [x in xs]). *)
Fixpoint py_index (x : value) (xs : list value) : nat :=
  match xs with
  | [] => 0
  | y :: ys => if py_eq x y then 0 else S (py_index x ys)
  end.

(** [round(val, 2)] on a float: nearest multiple of 1/100, ties to even,
    taken on the exact value of the float. *)
Definition round2 (q : Q) : Q :=
  let y := (q * 100)%Q in
  let f := Qfloor y in
  let d := (y - inject_Z f)%Q in
  let n :=
    if Qlt_le_dec d (1 # 2) then f
    else if Qeq_bool d (1 # 2) then (if Z.even f then f else f + 1)%Z
    else (f + 1)%Z in
  (inject_Z n / 100)%Q.

(** [round(val, 2) if isinstance(val, float) else val] *)
Definition convert (v : value) : value :=
  match v with
  | VFloat q => VFloat (round2 q)
  | _ => v
  end.

(** ** Strings *)

(** [needle in haystack] for Python strings. *)
Fixpoint contains (needle hay : string) : bool :=
  match hay with
  | EmptyString => String.eqb needle ""
  | String _ rest => String.prefix needle hay || contains needle rest
  end.

(** Characters removed by [str.strip()] (the ASCII whitespace). *)
Definition is_ws (c : ascii) : bool :=
  match nat_of_ascii c with
  | 32 | 9 | 10 | 11 | 12 | 13 => true
  | _ => false
  end.

Fixpoint lstrip (s : string) : string :=
  match s with
  | EmptyString => EmptyString
  | String c rest => if is_ws c then lstrip rest else s
  end.

Definition rev_string (s : string) : string :=
  string_of_list_ascii (List.rev (list_ascii_of_string s)).

(** [s.strip()] *)
Definition strip (s : string) : string :=
  rev_string (lstrip (rev_string (lstrip s))).

(** [v.strip()] on a cell value: an [AttributeError] ([None] here) unless
    the value is text. *)
Definition strip_value (v : value) : option string :=
  match v with VStr s => Some (strip s) | _ => None end.

(** [label and "..." in str(label)]: [str] of a number or a bool is a
    numeral, "True" or "False", which contains no category label. *)
Definition label_has (lbl : string) (o : option value) : bool :=
  match o with Some (VStr s) => contains lbl s | _ => false end.

(** ** Sheets and workbooks *)

Abbreviation sheet := (gmap (nat * nat) value).
Abbreviation workbook := (gmap string sheet).

(** [ws.cell(row=r, column=c).value] *)
Definition cell (ws : sheet) (r c : nat) : option value := ws !! (r, c).

(** [ws.cell(row=r, column=c, value=v)] *)
Definition set_cell (ws : sheet) (r c : nat) (v : value) : sheet :=
  <[(r, c) := v]> ws.

(** [ws.max_row] and [ws.max_column]: the largest row and column holding
    a cell.  (openpyxl also counts cells created by reads; such cells are
    empty and every scan below skips empty cells.) *)
Definition max_row (ws : sheet) : nat :=
  list_max (map (fun kv => fst (fst kv)) (map_to_list ws)).

Definition max_col (ws : sheet) : nat :=
  list_max (map (fun kv => snd (fst kv)) (map_to_list ws)).

(** The non-empty cells of [row] at the columns [cols], in order. *)
Fixpoint header_values (ws : sheet) (row : nat) (cols : list nat) : list value :=
  match cols with
  | [] => []
  | c :: cols =>
      match cell ws row c with
      | Some v => if truthy v then v :: header_values ws row cols
                  else header_values ws row cols
      | None => header_values ws row cols
      end
  end.

(** [[c.value for c in ws[row][3:] if c.value]]: the unit-tag header of
    [row], from column 4 (D) to [ws.max_column]. *)
Definition unit_tags (ws : sheet) (row : nat) : list value :=
  header_values ws row (seq 4 (max_col ws - 3)).

(** ** Building blocks of [populate_syscad_inputs] *)

(** Lines 38-41: [for i, tag in enumerate(stream_unit_tags):
    master_ws.cell(row=3, column=4 + i, value=tag)] (font and border are
    not modelled). *)
Fixpoint write_header_from (ws : sheet) (c : nat) (tags : list value) : sheet :=
  match tags with
  | [] => ws
  | t :: ts => write_header_from (set_cell ws 3 c t) (S c) ts
  end.

Definition write_header (ws : sheet) (tags : list value) : sheet :=
  write_header_from ws 4 tags.

(** Lines 44-48: [{row[2].value.strip(): r_idx for r_idx, row in
    enumerate(stream_ws.iter_rows(min_row=3, max_col=3), start=3)
    if row[2].value}]; a later row overwrites an earlier one. *)
Fixpoint tag_rows_from (ws : sheet) (rows : list nat) (acc : gmap string nat)
  : option (gmap string nat) :=
  match rows with
  | [] => Some acc
  | r :: rs =>
      match cell ws r 3 with
      | Some v =>
          if truthy v then
            match strip_value v with
            | Some k => tag_rows_from ws rs (<[k := r]> acc)
            | None => None
            end
          else tag_rows_from ws rs acc
      | None => tag_rows_from ws rs acc
      end
  end.

Definition stream_tag_to_row (ws : sheet) : option (gmap string nat) :=
  tag_rows_from ws (seq 3 (max_row ws - 2)) ∅.

(** Lines 51-61: the rows of the "SysCAD Inputs" block of the master
    sheet, [param_rows[pname.strip()] = r]. *)
Fixpoint scan_param_rows (ws : sheet) (rows : list nat) (in_syscad : bool)
    (param_rows : gmap string nat) : option (gmap string nat) :=
  match rows with
  | [] => Some param_rows
  | r :: rs =>
      let label := cell ws r 1 in
      let in_syscad := in_syscad || label_has "SysCAD Inputs" label in
      if in_syscad then
        if label_has "Engineering Inputs" label then Some param_rows
        else
          match cell ws r 2 with
          | Some pname =>
              if truthy pname then
                match strip_value pname with
                | Some k => scan_param_rows ws rs in_syscad (<[k := r]> param_rows)
                | None => None
                end
              else scan_param_rows ws rs in_syscad param_rows
          | None => scan_param_rows ws rs in_syscad param_rows
          end
      else scan_param_rows ws rs in_syscad param_rows
  end.

Definition param_rows_of (ws : sheet) : option (gmap string nat) :=
  scan_param_rows ws (seq 1 (max_row ws)) false ∅.

(** app.py, lines 144-156: [extract_syscad_params], the same walk
    collecting [params.append(p.strip())]. *)
Fixpoint extract_params_from (ws : sheet) (rows : list nat) (in_syscad : bool)
    (params : list string) : option (list string) :=
  match rows with
  | [] => Some params
  | r :: rs =>
      let cell_val := cell ws r 1 in
      let in_syscad := in_syscad || label_has "SysCAD Inputs" cell_val in
      if in_syscad then
        if label_has "Engineering Inputs" cell_val then Some params
        else
          match cell ws r 2 with
          | Some p =>
              if truthy p then
                match strip_value p with
                | Some k => extract_params_from ws rs in_syscad (params ++ [k])
                | None => None
                end
              else extract_params_from ws rs in_syscad params
          | None => extract_params_from ws rs in_syscad params
          end
      else extract_params_from ws rs in_syscad params
  end.

Definition extract_syscad_params (ws : sheet) : option (list string) :=
  extract_params_from ws (seq 1 (max_row ws)) false [].

(** Lines 70-86: one iteration of the inner loop over
    [param_mapping.items()], for the master column [col_off + 4] read from
    the streamtable column [stream_col]. *)
Definition populate_pair (stream_ws : sheet) (param_rows stream_rows : gmap string nat)
    (col_off stream_col : nat) (master_ws : sheet) (item : string * string) : sheet :=
  let (master_param, stream_tag) := item in
  match param_rows !! master_param, stream_rows !! stream_tag with
  | Some m_row, Some s_row =>
      let val := cell stream_ws s_row stream_col in
      let ws1 :=
        match val with
        | Some v => set_cell master_ws m_row (col_off + 4) (convert v)
        | None => master_ws
        end in
      let stream_unit := cell stream_ws s_row 2 in
      let master_unit := cell ws1 m_row 3 in
      match stream_unit with
      | Some u =>
          if truthy u && negb (py_eq_opt master_unit stream_unit)
          then set_cell ws1 m_row 3 u else ws1
      | None => ws1
      end
  | _, _ => master_ws
  end.

(** Lines 66-86: the loop over [enumerate(master_unit_tags)]. *)
Fixpoint populate_columns (stream_ws : sheet) (stream_unit_tags : list value)
    (param_rows stream_rows : gmap string nat) (param_mapping : list (string * string))
    (col_off : nat) (master_unit_tags : list value) (master_ws : sheet) : sheet :=
  match master_unit_tags with
  | [] => master_ws
  | unit_tag :: rest =>
      let master_ws :=
        if py_in unit_tag stream_unit_tags then
          fold_left
            (populate_pair stream_ws param_rows stream_rows col_off
               (py_index unit_tag stream_unit_tags + 4))
            param_mapping master_ws
        else master_ws in
      populate_columns stream_ws stream_unit_tags param_rows stream_rows
        param_mapping (S col_off) rest master_ws
  end.

(** Lines 28-86: the body of the loop over [common_sheets] for one
    equipment sheet; [None] is a raised exception. *)
Definition populate_sheet (master_ws stream_ws : sheet)
    (param_mapping : list (string * string)) : option sheet :=
  match param_mapping with
  | [] => Some master_ws
  | _ :: _ =>
      let stream_unit_tags := unit_tags stream_ws 1 in
      let master_ws := write_header master_ws stream_unit_tags in
      match stream_tag_to_row stream_ws with
      | None => None
      | Some stream_rows =>
          match param_rows_of master_ws with
          | None => None
          | Some param_rows =>
              let master_unit_tags := unit_tags master_ws 3 in
              Some (populate_columns stream_ws stream_unit_tags param_rows
                      stream_rows param_mapping 0 master_unit_tags master_ws)
          end
      end
  end.

(** ** The "SysCAD Inputs" block, as the scans of lines 51-61 see it *)

(** The parameter name a block row contributes: its column-2 text,
    stripped, when non-empty. *)
Definition block_name (ws : sheet) (r : nat) : option string :=
  match cell ws r 2 with
  | Some (VStr s) => if truthy (VStr s) then Some (strip s) else None
  | _ => None
  end.

(** Column 2 of row [r] holds no value on which [.strip()] would raise. *)
Definition name_ok (ws : sheet) (r : nat) : bool :=
  match cell ws r 2 with
  | Some (VStr _) | None => true
  | Some v => negb (truthy v)
  end.

(** Rows [o] to [e - 1] form the "SysCAD Inputs" block: row [o] is the
    first row whose column 1 contains "SysCAD Inputs", no row of the block
    has "Engineering Inputs" in column 1, and row [e] does (or [e] is past
    the last row).  Every block row has a text name or none. *)
Definition syscad_block (ws : sheet) (o e : nat) : bool :=
  Nat.leb 1 o && Nat.leb o e && label_has "SysCAD Inputs" (cell ws o 1) &&
  forallb (fun r => negb (label_has "SysCAD Inputs" (cell ws r 1))) (seq 1 (o - 1)) &&
  forallb (fun r => negb (label_has "Engineering Inputs" (cell ws r 1)) && name_ok ws r)
    (seq o (e - o)) &&
  Nat.leb e (max_row ws + 1) &&
  (if Nat.leb e (max_row ws) then label_has "Engineering Inputs" (cell ws e 1) else true).

(** One block row as the two scans record it: [param_rows[name] = r]
    (lines 60-61) and [params.append(name)] (app.py, lines 154-155). *)
Definition block_step (ws : sheet) (acc : gmap string nat) (r : nat) : gmap string nat :=
  match block_name ws r with Some k => <[k := r]> acc | None => acc end.

Definition block_list_step (ws : sheet) (acc : list string) (r : nat) : list string :=
  match block_name ws r with Some k => acc ++ [k] | None => acc end.

(** Lines 82-86 on one unit cell: the streamtable unit [su] replaces the
    master unit [mu] when it is non-empty and differs from it. *)
Definition unit_update (su mu : option value) : option value :=
  match su with
  | Some u => if truthy u && negb (py_eq_opt mu su) then Some u else mu
  | None => mu
  end.

(** [unit_update] with the unit found by [unit_source], if any. *)
Definition apply_unit_source (src : option (option value)) (mu : option value) :=
  match src with Some su => unit_update su mu | None => mu end.

(** The streamtable unit cell that reaches master row [r]: that of the
    first mapping item whose parameter lies on row [r] and whose tag has a
    row in the streamtable. *)
Fixpoint unit_source (stream_ws : sheet) (param_rows stream_rows : gmap string nat)
    (param_mapping : list (string * string)) (r : nat) : option (option value) :=
  match param_mapping with
  | [] => None
  | (p, t) :: rest =>
      match param_rows !! p, stream_rows !! t with
      | Some m_row, Some s_row =>
          if Nat.eqb m_row r then Some (cell stream_ws s_row 2)
          else unit_source stream_ws param_rows stream_rows rest r
      | _, _ => unit_source stream_ws param_rows stream_rows rest r
      end
  end.

(** ** The whole pass *)

Section Orchestrator.

(** The order in which Python iterates a set of sheet names
    ([for eq_type in common_sheets], [list(master_sheets - stream_sheets)]);
    it depends on string hashing. *)
Variable set_list : gset string -> list string.

Fixpoint populate_sheets (stream_wb : workbook)
    (mapping_dict : gmap string (list (string * string)))
    (names : list string) (master_wb : workbook) : option workbook :=
  match names with
  | [] => Some master_wb
  | eq_type :: rest =>
      let master_ws := default ∅ (master_wb !! eq_type) in
      let stream_ws := default ∅ (stream_wb !! eq_type) in
      let param_mapping := default [] (mapping_dict !! eq_type) in
      match populate_sheet master_ws stream_ws param_mapping with
      | None => None
      | Some ws => populate_sheets stream_wb mapping_dict rest (<[eq_type := ws]> master_wb)
      end
  end.

(** [populate_syscad_inputs(master_file, streamtable_file, mapping_dict)]:
    the populated master workbook and [missing_sheets]. *)
Definition populate_syscad_inputs (master_wb stream_wb : workbook)
    (mapping_dict : gmap string (list (string * string)))
  : option (workbook * list string) :=
  let master_sheets : gset string := dom master_wb in
  let stream_sheets : gset string := dom stream_wb in
  let common_sheets := master_sheets ∩ stream_sheets in
  let missing_sheets := set_list (master_sheets ∖ stream_sheets) in
  match populate_sheets stream_wb mapping_dict (set_list common_sheets) master_wb with
  | None => None
  | Some wb => Some (wb, missing_sheets)
  end.

End Orchestrator.

(** No two parameter names share a row. *)
Definition rows_injective (pr : gmap string nat) : Prop :=
  forall k1 k2 r, pr !! k1 = Some r -> pr !! k2 = Some r -> k1 = k2.

(** ** app.py: the mapping page *)

(** Python's [sorted] on a list of distinct strings: ascending order of
    code points, a prefix before its extensions.  [String.leb] compares
    the bytes of the UTF-8 encodings, which order as the code points do. *)
Fixpoint insert_string (x : string) (l : list string) : list string :=
  match l with
  | [] => [x]
  | y :: l' => if String.leb x y then x :: l else y :: insert_string x l'
  end.

Definition sorted_strings (l : list string) : list string :=
  fold_right insert_string [] l.

Section AppPage.

(** The iteration order of a Python set of strings, as above. *)
Variable set_list : gset string -> list string.



(** Line 170: [sorted({row[2].value.strip() for row in
    stream_ws.iter_rows(min_row=3, max_col=3) if row[2].value})]. *)
Fixpoint tag_set_from (ws : sheet) (rows : list nat) (acc : gset string)
  : option (gset string) :=
  match rows with
  | [] => Some acc
  | r :: rs =>
      match cell ws r 3 with
      | Some v =>
          if truthy v then
            match strip_value v with
            | Some k => tag_set_from ws rs ({[k]} ∪ acc)
            | None => None
            end
          else tag_set_from ws rs acc
      | None => tag_set_from ws rs acc
      end
  end.

Definition tag_list (ws : sheet) : option (list string) :=
  match tag_set_from ws (seq 3 (max_row ws - 2)) ∅ with
  | None => None
  | Some s => Some (sorted_strings (set_list s))
  end.

End AppPage.

(** The first option of every select box. *)
Definition skip_choice : string := "— skip —".

(** [xs.index(x)] on a list of strings (only called when [x in xs]). *)
Fixpoint str_index (x : string) (xs : list string) : nat :=
  match xs with
  | [] => 0
  | y :: ys => if String.eqb x y then 0 else S (str_index x ys)
  end.

(** Line 187: [(options).index(default) if default in options else 0]. *)
Definition default_index (options : list string) (dflt : string) : nat :=
  if existsb (String.eqb dflt) options then str_index dflt options else 0.

(** Lines 181-192, the loop over [param_list] of one equipment sheet.
    [select label options index] is the option the user leaves selected
    in the select box [st.selectbox(label, options, key=..., index=index)].
    Streamlit refuses a second widget with a key already used in the same
    run ([None] here); [used] are the keys used so far, the widget key is
    [f"{equip}_{p}"]. *)
Fixpoint map_params (select : string -> list string -> nat -> string)
    (equip : string) (tag_list : list string) (param_list : list string)
    (used : list string) (eq_map : gmap string string)
  : option (list string * gmap string string) :=
  match param_list with
  | [] => Some (used, eq_map)
  | p :: ps =>
      let key := equip +:+ "_" +:+ p in
      if existsb (String.eqb key) used then None
      else
        let dflt := default skip_choice (eq_map !! p) in
        let options := skip_choice :: tag_list in
        let choice := select p options (default_index options dflt) in
        let eq_map :=
          if String.eqb choice skip_choice then delete p eq_map
          else <[p := choice]> eq_map in
        map_params select equip tag_list ps (key :: used) eq_map
  end.

(** ** Example sheets *)

(** The example of the spec: "Pump-101" with parameter "Flow Rate" on
    row 10 (unit "kg/h") and unit tag "Train-A" on column 4; the
    streamtable has tag "FT-101" (unit "m3/h") with 12.345 under
    "Train-A". *)
Definition pump_master : sheet :=
  <[(3, 4) := VStr "Train-A"]> (<[(5, 1) := VStr "SysCAD Inputs"]>
  (<[(10, 2) := VStr "Flow Rate"]> (<[(10, 3) := VStr "kg/h"]>
  (<[(12, 1) := VStr "Engineering Inputs"]> ∅)))).

Definition pump_stream : sheet :=
  <[(1, 4) := VStr "Train-A"]> (<[(3, 2) := VStr "m3/h"]>
  (<[(3, 3) := VStr "FT-101"]> (<[(3, 4) := VFloat (12345 # 1000)]> ∅))).

Definition pump_mapping : list (string * string) := [("Flow Rate", "FT-101")].

(** A master whose own header has "Train-X" on column 4 and "Train-B" on
    column 5. *)
Definition tagged_master : sheet :=
  <[(3, 4) := VStr "Train-X"]> (<[(3, 5) := VStr "Train-B"]> pump_master).

(** A streamtable header with a gap: "Train-A" on column 4, nothing on
    column 5, "Train-B" on column 6, whose value for "FT-101" is 7. *)
Definition gap_stream : sheet :=
  <[(1, 6) := VStr "Train-B"]> (<[(3, 6) := VInt 7]> pump_stream).

(** A streamtable with no unit-tag header at all. *)
Definition headerless_stream : sheet := delete (1, 4) pump_stream.

(** A "SysCAD Inputs" block naming "Flow" on rows 2 and 3. *)
Definition duplicate_sheet : sheet :=
  <[(1, 1) := VStr "SysCAD Inputs"]> (<[(2, 2) := VStr "Flow"]>
  (<[(3, 2) := VStr " Flow"]> (<[(4, 1) := VStr "Engineering Inputs"]> ∅))).

(** A "SysCAD Inputs" block whose opening row has "Opening" in column 2. *)
Definition opening_sheet : sheet :=
  <[(1, 1) := VStr "SysCAD Inputs"]> (<[(1, 2) := VStr "Opening"]>
  (<[(2, 2) := VStr "Flow"]> (<[(3, 1) := VStr "Engineering Inputs"]> ∅))).

Definition two_sheet_master : workbook :=
  <["Pump-101" := pump_master]> (<["Tank-201" := pump_master]> ∅).

Definition pump_workbook : workbook := <["Pump-101" := pump_master]> ∅.
Definition pump_stream_workbook : workbook := <["Pump-101" := pump_stream]> ∅.
Definition pump_mapping_dict : gmap string (list (string * string)) :=
  <["Pump-101" := pump_mapping]> ∅.

(** * Proofs *)

Open Scope list_scope.

(** ** Values *)

Lemma py_eq_refl (v : value) : py_eq v v = true.
Proof.
  destruct v; simpl; [apply String.eqb_refl | apply Qeq_bool_refl
  | apply Qeq_bool_refl | destruct b; apply Qeq_bool_refl].
Qed.

Lemma py_in_elem (v : value) (xs : list value) : In v xs -> py_in v xs = true.
Proof.
  intros H. apply existsb_exists. exists v. split; [done | apply py_eq_refl].
Qed.

(** ** Sheet dimensions *)

Lemma max_col_ge (ws : sheet) r c v : ws !! (r, c) = Some v -> c <= max_col ws.
Proof.
  intros H. unfold max_col.
  assert (Hin : In c (map (fun kv => snd (fst kv)) (map_to_list ws))).
  { apply in_map_iff. exists ((r, c), v). split; [done|].
    apply list_elem_of_In, elem_of_map_to_list. done. }
  pose proof (proj1 (list_max_le (map (fun kv => snd (fst kv)) (map_to_list ws)) _)
    (le_n _)) as HF.
  rewrite List.Forall_forall in HF. by apply HF.
Qed.

Lemma max_col_le (ws : sheet) (N : nat) :
  (forall r c v, ws !! (r, c) = Some v -> c <= N) -> max_col ws <= N.
Proof.
  intros H. unfold max_col. apply list_max_le, List.Forall_forall.
  intros c Hc. apply in_map_iff in Hc as [[[r c'] v] [<- Hin]].
  apply list_elem_of_In, elem_of_map_to_list in Hin. simpl. by eapply H.
Qed.

Lemma max_row_ge (ws : sheet) r c v : ws !! (r, c) = Some v -> r <= max_row ws.
Proof.
  intros H. unfold max_row.
  assert (Hin : In r (map (fun kv => fst (fst kv)) (map_to_list ws))).
  { apply in_map_iff. exists ((r, c), v). split; [done|].
    apply list_elem_of_In, elem_of_map_to_list. done. }
  pose proof (proj1 (list_max_le (map (fun kv => fst (fst kv)) (map_to_list ws)) _)
    (le_n _)) as HF.
  rewrite List.Forall_forall in HF. by apply HF.
Qed.

Lemma cell_beyond_col (ws : sheet) r c : max_col ws < c -> cell ws r c = None.
Proof.
  intros Hc. unfold cell. destruct (ws !! (r, c)) eqn:E; [|done].
  apply max_col_ge in E. lia.
Qed.

Lemma cell_beyond_row (ws : sheet) r c : max_row ws < r -> cell ws r c = None.
Proof.
  intros Hr. unfold cell. destruct (ws !! (r, c)) eqn:E; [|done].
  apply max_row_ge in E. lia.
Qed.

(** ** Reading a header row *)

Lemma header_values_app ws row l1 l2 :
  header_values ws row (l1 ++ l2) = header_values ws row l1 ++ header_values ws row l2.
Proof. induction l1 as [|c l1 IH]; simpl; [done|].
  destruct (cell ws row c) as [v|]; [destruct (truthy v)|]; simpl; by rewrite IH. Qed.

Lemma header_values_ext ws1 ws2 row cols :
  (forall c, In c cols -> cell ws1 row c = cell ws2 row c) ->
  header_values ws1 row cols = header_values ws2 row cols.
Proof.
  induction cols as [|c cols IH]; intros H; simpl; [done|].
  rewrite (H c (or_introl eq_refl)), IH; [done|]. intros; apply H; by right.
Qed.

Lemma header_values_empty ws row cols :
  (forall c, In c cols -> cell ws row c = None) -> header_values ws row cols = [].
Proof.
  induction cols as [|c cols IH]; intros H; simpl; [done|].
  rewrite (H c (or_introl eq_refl)). apply IH. intros; apply H; by right.
Qed.

(** Cells past [ws.max_column] are empty, so reading further changes
    nothing. *)
Lemma header_values_extend ws row s k1 k2 :
  max_col ws < s + k1 ->
  header_values ws row (seq s (k1 + k2)) = header_values ws row (seq s k1).
Proof.
  intros H. rewrite seq_app, header_values_app, (header_values_empty _ _ (seq _ k2)).
  - by rewrite app_nil_r.
  - intros c Hc. apply in_seq in Hc. apply cell_beyond_col. lia.
Qed.

Lemma unit_tags_bound ws row N :
  max_col ws <= N -> unit_tags ws row = header_values ws row (seq 4 (N - 3)).
Proof.
  intros H. unfold unit_tags.
  replace (N - 3) with ((max_col ws - 3) + (N - 3 - (max_col ws - 3))) by lia.
  rewrite header_values_extend; [done | lia].
Qed.

(** ** The header rewrite of lines 38-41 *)

Lemma write_header_from_other ws c tags r c' :
  r <> 3 \/ c' < c \/ c + length tags <= c' ->
  cell (write_header_from ws c tags) r c' = cell ws r c'.
Proof.
  revert ws c. induction tags as [|t tags IH]; intros ws c H; simpl in *; [done|].
  rewrite IH by lia. unfold cell, set_cell.
  rewrite lookup_insert_ne; [done|]. intros [=]. lia.
Qed.

Lemma write_header_from_nth ws c tags i t :
  nth_error tags i = Some t -> cell (write_header_from ws c tags) 3 (c + i) = Some t.
Proof.
  revert ws c i. induction tags as [|t' tags IH]; intros ws c i H; simpl.
  - by destruct i.
  - destruct i as [|i]; simpl in H.
    + injection H as ->. rewrite write_header_from_other by lia.
      unfold cell, set_cell. rewrite Nat.add_0_r. apply lookup_insert_eq.
    + replace (c + S i) with (S c + i) by lia. by apply IH.
Qed.

Lemma write_header_from_max_col ws c tags :
  max_col (write_header_from ws c tags) <= Nat.max (max_col ws) (c + length tags).
Proof.
  apply max_col_le. intros r c' v H.
  destruct (decide (r = 3 /\ c <= c' < c + length tags)) as [?|Hn]; [lia|].
  assert (Hc : cell (write_header_from ws c tags) r c' = cell ws r c')
    by (apply write_header_from_other; lia).
  unfold cell in Hc. rewrite Hc in H. apply max_col_ge in H. lia.
Qed.

Lemma header_values_written ws c tags :
  Forall (fun t => truthy t = true) tags ->
  header_values (write_header_from ws c tags) 3 (seq c (length tags)) = tags.
Proof.
  revert ws c. induction tags as [|t tags IH]; intros ws c Ht; simpl; [done|].
  inversion Ht as [|? ? Ht1 Ht2]; subst.
  rewrite write_header_from_other by lia. unfold cell at 1, set_cell.
  rewrite lookup_insert_eq, Ht1. f_equal. by apply IH.
Qed.

Lemma header_values_truthy ws row cols :
  Forall (fun t => truthy t = true) (header_values ws row cols).
Proof.
  induction cols as [|c cols IH]; simpl; [constructor|].
  destruct (cell ws row c) as [v|]; [destruct (truthy v) eqn:E|]; auto.
Qed.

(** The master unit-tag list read on line 63, after the rewrite of
    lines 38-41: the streamtable's tags, then whatever non-empty master
    headers lie right of them. *)
Lemma unit_tags_after_header (M : sheet) (tags : list value) :
  Forall (fun t => truthy t = true) tags ->
  unit_tags (write_header M tags) 3
  = tags ++ header_values M 3 (seq (4 + length tags) (max_col M - 3 - length tags)).
Proof.
  intros Ht. set (n := length tags). set (N := Nat.max (max_col M) (4 + n)).
  rewrite (unit_tags_bound _ _ N) by apply write_header_from_max_col.
  replace (N - 3) with (n + (N - 3 - n)) by lia.
  rewrite seq_app, header_values_app. unfold write_header.
  rewrite header_values_written by done. f_equal.
  rewrite (header_values_ext _ M).
  2:{ intros c Hc. apply in_seq in Hc. apply write_header_from_other. lia. }
  replace (N - 3 - n) with ((max_col M - 3 - n) + (N - 3 - n - (max_col M - 3 - n))) by lia.
  replace (4 + n) with (4 + length tags) by done.
  apply header_values_extend. lia.
Qed.

(** Every tag of the streamtable list is found in the master list read
    after the rewrite, at its own position. *)
Lemma unit_tags_after_header_nth (M : sheet) (tags : list value) i t :
  Forall (fun t => truthy t = true) tags -> nth_error tags i = Some t ->
  nth_error (unit_tags (write_header M tags) 3) i = Some t.
Proof.
  intros Ht Hi. rewrite unit_tags_after_header by done.
  rewrite nth_error_app1; [done|]. apply nth_error_Some. by rewrite Hi.
Qed.

(** ** The parameter scans of lines 51-61 and of app.py *)

Lemma scan_param_rows_ext ws1 ws2 rows b acc :
  (forall r, In r rows -> cell ws1 r 1 = cell ws2 r 1 /\ cell ws1 r 2 = cell ws2 r 2) ->
  scan_param_rows ws1 rows b acc = scan_param_rows ws2 rows b acc.
Proof.
  revert b acc. induction rows as [|r rows IH]; intros b acc H; simpl; [done|].
  destruct (H r (or_introl eq_refl)) as [-> ->].
  assert (H' : forall r', In r' rows ->
            cell ws1 r' 1 = cell ws2 r' 1 /\ cell ws1 r' 2 = cell ws2 r' 2)
    by (intros; apply H; by right).
  repeat (case_match; try done); by apply IH.
Qed.

Lemma scan_param_rows_app_empty ws l1 l2 b acc :
  (forall r, In r l2 -> cell ws r 1 = None /\ cell ws r 2 = None) ->
  scan_param_rows ws (l1 ++ l2) b acc = scan_param_rows ws l1 b acc.
Proof.
  intros H. revert b acc. induction l1 as [|r l1 IH]; intros b acc; simpl.
  - revert b acc. induction l2 as [|r l2 IH2]; intros b acc; simpl; [done|].
    destruct (H r (or_introl eq_refl)) as [-> ->]. simpl.
    rewrite orb_false_r. destruct b; apply IH2; intros; apply H; by right.
  - repeat (case_match; try done).
Qed.

Lemma param_rows_of_bound ws N :
  max_row ws <= N -> param_rows_of ws = scan_param_rows ws (seq 1 N) false ∅.
Proof.
  intros H. unfold param_rows_of.
  replace N with (max_row ws + (N - max_row ws)) by lia.
  rewrite seq_app, scan_param_rows_app_empty; [done|].
  intros r Hr. apply in_seq in Hr. split; apply cell_beyond_row; lia.
Qed.

(** Only columns 1 and 2 matter to the lookup. *)
Lemma param_rows_of_ext ws1 ws2 :
  (forall r, cell ws1 r 1 = cell ws2 r 1 /\ cell ws1 r 2 = cell ws2 r 2) ->
  param_rows_of ws1 = param_rows_of ws2.
Proof.
  intros H. set (N := Nat.max (max_row ws1) (max_row ws2)).
  rewrite (param_rows_of_bound ws1 N), (param_rows_of_bound ws2 N) by lia.
  apply scan_param_rows_ext. auto.
Qed.

Lemma scan_param_rows_injective ws len : forall a b acc pr,
  scan_param_rows ws (seq a len) b acc = Some pr ->
  (forall k r, acc !! k = Some r -> r < a) -> rows_injective acc ->
  rows_injective pr.
Proof.
  induction len as [|len IH]; intros a b acc pr Hs Hlt Hinj; simpl in Hs.
  { by injection Hs as <-. }
  repeat (case_match; simplify_eq; try done).
  all: lazymatch goal with
  | Hs : scan_param_rows _ _ _ (<[?k := _]> _) = Some _ |- _ =>
      eapply IH; [exact Hs| |];
      [ intros k' r' Hk'; destruct (decide (k' = k)) as [->|Hne];
        [ rewrite lookup_insert_eq in Hk'; injection Hk' as <-; lia
        | rewrite lookup_insert_ne in Hk' by done; apply Hlt in Hk'; lia ]
      | intros k1 k2 r' Hq1 Hq2;
        destruct (decide (k1 = k)) as [->|Hne1], (decide (k2 = k)) as [->|Hne2];
        [ done
        | rewrite lookup_insert_eq in Hq1; rewrite lookup_insert_ne in Hq2 by done;
          injection Hq1 as <-; apply Hlt in Hq2; lia
        | rewrite lookup_insert_eq in Hq2; rewrite lookup_insert_ne in Hq1 by done;
          injection Hq2 as <-; apply Hlt in Hq1; lia
        | rewrite lookup_insert_ne in Hq1, Hq2 by done; by eapply Hinj ] ]
  | Hs : scan_param_rows _ _ _ _ = Some _ |- _ =>
      eapply IH; [exact Hs| intros k r Hk; apply Hlt in Hk; lia | done]
  end.
Qed.

Lemma param_rows_of_injective ws pr :
  param_rows_of ws = Some pr -> rows_injective pr.
Proof.
  intros H. eapply scan_param_rows_injective; [exact H| |].
  - intros k r Hk. by rewrite lookup_empty in Hk.
  - intros k1 k2 r Hk. by rewrite lookup_empty in Hk.
Qed.

Lemma name_ok_block_name ws r v :
  name_ok ws r = true -> cell ws r 2 = Some v -> truthy v = true ->
  exists s, v = VStr s /\ block_name ws r = Some (strip s).
Proof.
  unfold name_ok, block_name. intros Hok Hc Ht. rewrite Hc in Hok |- *.
  destruct v; simpl in *; try (rewrite Ht in Hok; done).
  exists s. rewrite Ht. done.
Qed.

Lemma block_name_none ws r :
  (forall v, cell ws r 2 = Some v -> truthy v = false) -> block_name ws r = None.
Proof.
  unfold block_name. intros H. destruct (cell ws r 2) as [v|] eqn:E; [|done].
  specialize (H v eq_refl). destruct v; try done. by rewrite H.
Qed.

Lemma scan_param_rows_before ws l1 l2 acc :
  (forall r, In r l1 -> label_has "SysCAD Inputs" (cell ws r 1) = false) ->
  scan_param_rows ws (l1 ++ l2) false acc = scan_param_rows ws l2 false acc.
Proof.
  induction l1 as [|r l1 IH]; intros H; simpl; [done|].
  rewrite (H r (or_introl eq_refl)). apply IH. intros; apply H; by right.
Qed.

Lemma scan_param_rows_in_block ws l l3 acc :
  (forall r, In r l -> label_has "Engineering Inputs" (cell ws r 1) = false
                       /\ name_ok ws r = true) ->
  scan_param_rows ws (l ++ l3) true acc
  = scan_param_rows ws l3 true (foldl (block_step ws) acc l).
Proof.
  revert acc. induction l as [|r l IH]; intros acc H; simpl; [done|].
  destruct (H r (or_introl eq_refl)) as [Heng Hok]. rewrite Heng.
  assert (H' : forall r', In r' l -> label_has "Engineering Inputs" (cell ws r' 1) = false
                                    /\ name_ok ws r' = true) by (intros; apply H; by right).
  unfold block_step at 2.
  destruct (cell ws r 2) as [v|] eqn:Hc.
  - destruct (truthy v) eqn:Ht.
    + destruct (name_ok_block_name ws r v Hok Hc Ht) as [s [-> Hb]].
      rewrite Hb. simpl. by apply IH.
    + rewrite block_name_none by (intros v' Hv'; congruence). by apply IH.
  - rewrite block_name_none by (intros v' Hv'; congruence). by apply IH.
Qed.

Lemma extract_params_before ws l1 l2 acc :
  (forall r, In r l1 -> label_has "SysCAD Inputs" (cell ws r 1) = false) ->
  extract_params_from ws (l1 ++ l2) false acc = extract_params_from ws l2 false acc.
Proof.
  induction l1 as [|r l1 IH]; intros H; simpl; [done|].
  rewrite (H r (or_introl eq_refl)). apply IH. intros; apply H; by right.
Qed.

Lemma extract_params_in_block ws l l3 acc :
  (forall r, In r l -> label_has "Engineering Inputs" (cell ws r 1) = false
                       /\ name_ok ws r = true) ->
  extract_params_from ws (l ++ l3) true acc
  = extract_params_from ws l3 true (foldl (block_list_step ws) acc l).
Proof.
  revert acc. induction l as [|r l IH]; intros acc H; simpl; [done|].
  destruct (H r (or_introl eq_refl)) as [Heng Hok]. rewrite Heng.
  assert (H' : forall r', In r' l -> label_has "Engineering Inputs" (cell ws r' 1) = false
                                    /\ name_ok ws r' = true) by (intros; apply H; by right).
  unfold block_list_step at 2.
  destruct (cell ws r 2) as [v|] eqn:Hc.
  - destruct (truthy v) eqn:Ht.
    + destruct (name_ok_block_name ws r v Hok Hc Ht) as [s [-> Hb]].
      rewrite Hb. simpl. by apply IH.
    + rewrite block_name_none by (intros v' Hv'; congruence). by apply IH.
  - rewrite block_name_none by (intros v' Hv'; congruence). by apply IH.
Qed.

Lemma syscad_block_spec ws o e :
  syscad_block ws o e = true ->
  1 <= o <= e /\ o <= max_row ws /\ e <= max_row ws + 1 /\
  label_has "SysCAD Inputs" (cell ws o 1) = true /\
  (forall r, In r (seq 1 (o - 1)) -> label_has "SysCAD Inputs" (cell ws r 1) = false) /\
  (forall r, In r (seq o (e - o)) -> label_has "Engineering Inputs" (cell ws r 1) = false
                                     /\ name_ok ws r = true) /\
  (e <= max_row ws -> label_has "Engineering Inputs" (cell ws e 1) = true).
Proof.
  unfold syscad_block. intros H.
  repeat rewrite andb_true_iff in H.
  destruct H as [[[[[[H1 H2] H3] H4] H5] H6] H7].
  apply Nat.leb_le in H1, H2, H6.
  rewrite forallb_forall in H4, H5.
  assert (Ho : o <= max_row ws).
  { destruct (decide (o <= max_row ws)) as [|Hn]; [done|].
    rewrite cell_beyond_row in H3 by lia. done. }
  split; [lia|]. split; [lia|]. split; [lia|]. split; [done|]. split; [|split].
  - intros r Hr. specialize (H4 r Hr). by apply negb_true_iff in H4.
  - intros r Hr. specialize (H5 r Hr). apply andb_true_iff in H5 as [H5 H5'].
    split; [by apply negb_true_iff in H5|done].
  - intros He. apply Nat.leb_le in He. by rewrite He in H7.
Qed.

Lemma seq_block_split o e m :
  1 <= o <= e -> o <= m -> e <= m + 1 ->
  seq 1 m = seq 1 (o - 1) ++ seq o (m + 1 - o)
  /\ seq o (m + 1 - o) = seq o (e - o) ++ seq e (m + 1 - e).
Proof.
  intros. split.
  - replace m with ((o - 1) + (m + 1 - o)) at 1 by lia.
    rewrite seq_app. do 2 f_equal. lia.
  - replace (m + 1 - o) with ((e - o) + (m + 1 - e)) at 1 by lia.
    rewrite seq_app. do 2 f_equal. lia.
Qed.

(** The lookup of lines 51-61 is the row-by-row record of the block
    rows [o .. e - 1], opening row included, a later row overwriting an
    earlier one. *)
Lemma param_rows_of_block ws o e :
  syscad_block ws o e = true ->
  param_rows_of ws = Some (foldl (block_step ws) ∅ (seq o (e - o))).
Proof.
  intros H.
  destruct (syscad_block_spec ws o e H) as (Hoe & Hom & Hem & Hopen & Hbefore & Hin & Hend).
  destruct (seq_block_split o e (max_row ws)) as [S1 S2]; [lia|lia|lia|].
  unfold param_rows_of. rewrite S1, scan_param_rows_before by done.
  replace (max_row ws + 1 - o) with (S (max_row ws - o)) by lia.
  assert (Hsw : scan_param_rows ws (seq o (S (max_row ws - o))) false ∅
              = scan_param_rows ws (seq o (S (max_row ws - o))) true ∅)
    by (simpl; by rewrite Hopen).
  rewrite Hsw. replace (S (max_row ws - o)) with (max_row ws + 1 - o) by lia.
  rewrite S2, scan_param_rows_in_block by done.
  destruct (decide (e <= max_row ws)) as [Hle|Hgt].
  - replace (max_row ws + 1 - e) with (S (max_row ws - e)) by lia.
    simpl. by rewrite Hend.
  - replace (max_row ws + 1 - e) with 0 by lia. done.
Qed.

(** The same for [extract_syscad_params] of app.py. *)
Lemma extract_syscad_params_block ws o e :
  syscad_block ws o e = true ->
  extract_syscad_params ws = Some (foldl (block_list_step ws) [] (seq o (e - o))).
Proof.
  intros H.
  destruct (syscad_block_spec ws o e H) as (Hoe & Hom & Hem & Hopen & Hbefore & Hin & Hend).
  destruct (seq_block_split o e (max_row ws)) as [S1 S2]; [lia|lia|lia|].
  unfold extract_syscad_params. rewrite S1, extract_params_before by done.
  replace (max_row ws + 1 - o) with (S (max_row ws - o)) by lia.
  assert (Hsw : extract_params_from ws (seq o (S (max_row ws - o))) false []
              = extract_params_from ws (seq o (S (max_row ws - o))) true [])
    by (simpl; by rewrite Hopen).
  rewrite Hsw. replace (S (max_row ws - o)) with (max_row ws + 1 - o) by lia.
  rewrite S2, extract_params_in_block by done.
  destruct (decide (e <= max_row ws)) as [Hle|Hgt].
  - replace (max_row ws + 1 - e) with (S (max_row ws - e)) by lia.
    simpl. by rewrite Hend.
  - replace (max_row ws + 1 - e) with 0 by lia. done.
Qed.

Lemma block_step_notin ws k l acc :
  (forall r, In r l -> block_name ws r <> Some k) ->
  foldl (block_step ws) acc l !! k = acc !! k.
Proof.
  revert acc. induction l as [|r l IH]; intros acc H; simpl; [done|].
  rewrite IH by (intros; apply H; by right). unfold block_step.
  destruct (block_name ws r) as [k'|] eqn:E; [|done].
  rewrite lookup_insert_ne; [done|]. intros ->. by apply (H r (or_introl eq_refl)).
Qed.

Lemma block_list_step_keeps ws k l acc :
  In k acc -> In k (foldl (block_list_step ws) acc l).
Proof.
  revert acc. induction l as [|r l IH]; intros acc H; simpl; [done|].
  apply IH. unfold block_list_step. destruct (block_name ws r); [|done].
  apply in_or_app. by left.
Qed.

(** Shared by the duplicate and opening-row statements: a name of the
    block maps to the last block row that carries it, and is in the list
    of app.py. *)
Lemma param_rows_of_block_lookup (ws : sheet) (o e r : nat) (k : string) :
  syscad_block ws o e = true -> o <= r < e -> block_name ws r = Some k ->
  (exists ps, extract_syscad_params ws = Some ps /\ In k ps) /\
  ((forall r', r < r' < e -> block_name ws r' <> Some k) ->
   exists pr, param_rows_of ws = Some pr /\ pr !! k = Some r).
Proof.
  intros Hb Hr Hk.
  assert (Hsplit : seq o (e - o) = seq o (r - o) ++ r :: seq (S r) (e - S r)).
  { replace (e - o) with ((r - o) + S (e - S r)) by lia.
    rewrite seq_app. replace (o + (r - o)) with r by lia. done. }
  split.
  - eexists. split; [by apply extract_syscad_params_block|].
    rewrite Hsplit, foldl_app. simpl. apply block_list_step_keeps.
    unfold block_list_step. rewrite Hk. apply in_or_app. right. by left.
  - intros Hlast. eexists. split; [by apply param_rows_of_block|].
    rewrite Hsplit, foldl_app. simpl. rewrite block_step_notin.
    + unfold block_step at 1. rewrite Hk. apply lookup_insert_eq.
    + intros r' Hr'. apply in_seq in Hr'. apply Hlast. lia.
Qed.

(** ** The value loop of lines 66-86 *)

Lemma populate_pair_frame sw pr tr co sc ws p t r c :
  pr !! p <> Some r \/ (c <> 3 /\ c <> co + 4) ->
  cell (populate_pair sw pr tr co sc ws (p, t)) r c = cell ws r c.
Proof.
  intros H. unfold populate_pair.
  destruct (pr !! p) as [m_row|] eqn:Ep; [|done].
  destruct (tr !! t) as [s_row|]; [|done].
  assert (Hne : forall c', c' = 3 \/ c' = co + 4 -> (m_row, c') <> (r, c)).
  { intros c' Hc' [=]. subst. destruct H as [H|H]; [by apply H|lia]. }
  assert (Hws1 : cell (match cell sw s_row sc with
                       | Some v => set_cell ws m_row (co + 4) (convert v)
                       | None => ws end) r c = cell ws r c).
  { destruct (cell sw s_row sc); [|done]. unfold cell, set_cell.
    rewrite lookup_insert_ne; [done|]. apply Hne. by right. }
  destruct (cell sw s_row 2) as [u|]; [|done].
  destruct (truthy u && negb _); [|exact Hws1]. unfold cell at 1, set_cell.
  rewrite lookup_insert_ne; [exact Hws1|]. apply Hne. by left.
Qed.

Lemma fold_pairs_frame sw pr tr co sc m ws r c :
  (forall p t, In (p, t) m -> pr !! p <> Some r \/ (c <> 3 /\ c <> co + 4)) ->
  cell (fold_left (populate_pair sw pr tr co sc) m ws) r c = cell ws r c.
Proof.
  revert ws. induction m as [|[p t] m IH]; intros ws H; simpl; [done|].
  rewrite IH by (intros p' t' Hin; apply (H p' t'); by right).
  apply populate_pair_frame with (t := t). apply (H p t). by left.
Qed.

Lemma populate_columns_frame sw stags pr tr m co tags ws r c :
  c <> 3 ->
  (forall j t, nth_error tags j = Some t -> py_in t stags = true -> c <> co + j + 4) ->
  cell (populate_columns sw stags pr tr m co tags ws) r c = cell ws r c.
Proof.
  revert co ws. induction tags as [|t tags IH]; intros co ws H3 H; simpl; [done|].
  rewrite IH; [| done |].
  - destruct (py_in t stags) eqn:E; [|done].
    apply fold_pairs_frame. intros p t' _. right. split; [done|].
    specialize (H 0 t eq_refl E). lia.
  - intros j t' Hj Ht'. specialize (H (S j) t' Hj Ht'). lia.
Qed.

Lemma populate_columns_app sw stags pr tr m co tags1 tags2 ws :
  populate_columns sw stags pr tr m co (tags1 ++ tags2) ws
  = populate_columns sw stags pr tr m (co + length tags1) tags2
      (populate_columns sw stags pr tr m co tags1 ws).
Proof.
  revert co ws. induction tags1 as [|t tags1 IH]; intros co ws; simpl.
  - by rewrite Nat.add_0_r.
  - rewrite IH. by replace (S co + length tags1) with (co + S (length tags1)) by lia.
Qed.

Lemma NoDup_fst_in (m : list (string * string)) p t :
  NoDup (map fst m) -> In (p, t) m -> forall t', In (p, t') m -> t = t'.
Proof.
  induction m as [|[p' t0] m IH]; intros Hnd H t' H'; [done|].
  simpl in Hnd. apply NoDup_cons in Hnd as [Hni Hnd].
  simpl in H, H'.
  destruct H as [Heq|H], H' as [Heq'|H'].
  - rewrite Heq in Heq'. congruence.
  - exfalso. injection Heq as -> ->. apply Hni, list_elem_of_In.
    apply in_map_iff. by exists (p, t').
  - exfalso. injection Heq' as -> ->. apply Hni, list_elem_of_In.
    apply in_map_iff. by exists (p, t).
  - by eapply IH.
Qed.

Lemma NoDup_fst_other (m : list (string * string)) p t :
  NoDup (map fst (( p, t) :: m)) -> forall p' t', In (p', t') m -> p' <> p.
Proof.
  simpl. intros Hnd p' t' H ->. apply NoDup_cons in Hnd as [Hni _].
  apply Hni, list_elem_of_In. apply in_map_iff. by exists (p, t').
Qed.

(** The value cell of a mapped pair in one matched column. *)
Lemma fold_pairs_value sw pr tr co sc m ws p tg r sr :
  NoDup (map fst m) -> rows_injective pr -> In (p, tg) m ->
  pr !! p = Some r -> tr !! tg = Some sr ->
  cell (fold_left (populate_pair sw pr tr co sc) m ws) r (co + 4)
  = match cell sw sr sc with Some v => Some (convert v) | None => cell ws r (co + 4) end.
Proof.
  intros Hnd Hinj. revert ws. induction m as [|[p' t'] m IH]; intros ws Hin Hp Ht; [done|].
  simpl. destruct (decide (p' = p)) as [->|Hne].
  - assert (t' = tg) as ->.
    { symmetry. eapply NoDup_fst_in; [exact Hnd|exact Hin|by left]. }
    rewrite fold_pairs_frame.
    + unfold populate_pair. rewrite Hp, Ht.
      destruct (cell sw sr 2) as [u|]; [destruct (truthy u && _)|];
        destruct (cell sw sr sc) as [v|]; unfold cell, set_cell;
        repeat (rewrite lookup_insert_ne by (intros [=]; lia)); try done;
        by rewrite lookup_insert_eq.
    + intros p'' t'' Hin''. left. intros Hp''.
      apply (NoDup_fst_other _ _ _ Hnd p'' t'' Hin''). by eapply Hinj.
  - destruct Hin as [[= -> ->]|Hin]; [done|].
    simpl in Hnd. apply NoDup_cons in Hnd as [_ Hnd].
    rewrite IH by done. destruct (cell sw sr sc); [done|].
    apply populate_pair_frame. left. intros Hp'. by apply Hne, (Hinj p' p r).
Qed.

(** ** Unit cells *)

Lemma unit_update_idem su mu : unit_update su (unit_update su mu) = unit_update su mu.
Proof.
  unfold unit_update. destruct su as [u|]; [|done].
  destruct (truthy u && negb (py_eq_opt mu (Some u))) eqn:E; [|by rewrite E].
  simpl. rewrite py_eq_refl. by rewrite andb_false_r.
Qed.

Lemma apply_unit_source_idem src mu :
  apply_unit_source src (apply_unit_source src mu) = apply_unit_source src mu.
Proof. destruct src; simpl; [apply unit_update_idem|done]. Qed.

Lemma populate_pair_unit sw pr tr co sc ws p t r :
  cell (populate_pair sw pr tr co sc ws (p, t)) r 3
  = match pr !! p, tr !! t with
    | Some m_row, Some s_row =>
        if Nat.eqb m_row r then unit_update (cell sw s_row 2) (cell ws r 3) else cell ws r 3
    | _, _ => cell ws r 3
    end.
Proof.
  destruct (pr !! p) as [m_row|] eqn:Ep, (tr !! t) as [s_row|] eqn:Et;
    try (unfold populate_pair; rewrite Ep; try rewrite Et; done).
  destruct (Nat.eqb_spec m_row r) as [<-|Hne].
  - unfold populate_pair. rewrite Ep, Et.
    assert (Hws1 : cell (match cell sw s_row sc with
                         | Some v => set_cell ws m_row (co + 4) (convert v)
                         | None => ws end) m_row 3 = cell ws m_row 3).
    { destruct (cell sw s_row sc); [|done]. unfold cell, set_cell.
      rewrite lookup_insert_ne; [done|]. intros [=]. lia. }
    rewrite Hws1. unfold unit_update.
    destruct (cell sw s_row 2) as [u|]; [|exact Hws1].
    destruct (truthy u && _); [|exact Hws1].
    unfold cell at 1, set_cell. apply lookup_insert_eq.
  - apply populate_pair_frame. left. rewrite Ep. congruence.
Qed.

Lemma fold_pairs_unit sw pr tr co sc m ws r :
  NoDup (map fst m) -> rows_injective pr ->
  cell (fold_left (populate_pair sw pr tr co sc) m ws) r 3
  = apply_unit_source (unit_source sw pr tr m r) (cell ws r 3).
Proof.
  intros Hnd Hinj. revert ws.
  induction m as [|[p t] m IH]; intros ws; cbn [fold_left unit_source]; [done|].
  assert (Hnd' : NoDup (map fst m)) by (simpl in Hnd; by apply NoDup_cons in Hnd as [_ ?]).
  destruct (pr !! p) as [m_row|] eqn:Ep, (tr !! t) as [s_row|] eqn:Et.
  2-4: rewrite IH by done;
    first [reflexivity | f_equal; rewrite populate_pair_unit, Ep; try rewrite Et; done].
  destruct (Nat.eqb_spec m_row r) as [<-|Hne].
  - rewrite fold_pairs_frame.
    + rewrite populate_pair_unit, Ep, Et, Nat.eqb_refl. done.
    + intros p' t' Hin. left. intros Hp'.
      apply (NoDup_fst_other _ _ _ Hnd p' t' Hin). by eapply Hinj.
  - rewrite IH by done. f_equal. rewrite populate_pair_unit, Ep, Et.
    by destruct (Nat.eqb_spec m_row r).
Qed.

Lemma populate_columns_unit sw stags pr tr m co tags ws r :
  NoDup (map fst m) -> rows_injective pr ->
  cell (populate_columns sw stags pr tr m co tags ws) r 3
  = if existsb (fun t => py_in t stags) tags
    then apply_unit_source (unit_source sw pr tr m r) (cell ws r 3)
    else cell ws r 3.
Proof.
  intros Hnd Hinj. revert co ws. induction tags as [|t tags IH]; intros co ws; simpl; [done|].
  rewrite IH. destruct (py_in t stags) eqn:E; simpl.
  - rewrite fold_pairs_unit by done.
    destruct (existsb _ tags); [apply apply_unit_source_idem|done].
  - done.
Qed.

Lemma unit_source_pair sw pr tr m p tg r sr :
  NoDup (map fst m) -> rows_injective pr -> In (p, tg) m ->
  pr !! p = Some r -> tr !! tg = Some sr ->
  unit_source sw pr tr m r = Some (cell sw sr 2).
Proof.
  intros Hnd Hinj. induction m as [|[p' t'] m IH]; intros Hin Hp Ht; [done|].
  simpl. assert (Hnd' : NoDup (map fst m)) by (simpl in Hnd; by apply NoDup_cons in Hnd as [_ ?]).
  destruct (pr !! p') as [m_row|] eqn:Ep, (tr !! t') as [s_row|] eqn:Et.
  - destruct (Nat.eqb_spec m_row r) as [->|Hne].
    + assert (p' = p) as -> by (eapply Hinj; [exact Ep|exact Hp]).
      assert (t' = tg) as ->.
      { eapply NoDup_fst_in; [exact Hnd| by left | exact Hin]. }
      rewrite Ht in Et. by injection Et as ->.
    + destruct Hin as [[= -> ->]|Hin]; [congruence|]. by apply IH.
  - destruct Hin as [[= -> ->]|Hin]; [congruence|]. by apply IH.
  - destruct Hin as [[= -> ->]|Hin]; [congruence|]. by apply IH.
  - destruct Hin as [[= -> ->]|Hin]; [congruence|]. by apply IH.
Qed.

(** Some master unit tag read after the header rewrite is a streamtable
    tag exactly when the streamtable has one. *)
Lemma matched_column_after_header (M : sheet) (stags : list value) :
  Forall (fun t => truthy t = true) stags ->
  existsb (fun t => py_in t stags) (unit_tags (write_header M stags) 3)
  = match stags with [] => false | _ :: _ => true end.
Proof.
  intros Ht. rewrite unit_tags_after_header by done.
  destruct stags as [|t0 stags'].
  - simpl. generalize (header_values M 3 (seq 4 (max_col M - 3 - 0))). intros l.
    induction l as [|x l IHl]; [done|]. simpl. by rewrite IHl.
  - simpl. by rewrite py_eq_refl.
Qed.

(** What [populate_sheet] does once the mapping is non-empty. *)
Lemma populate_sheet_inv (M S M' : sheet) (m : list (string * string)) :
  m <> [] -> populate_sheet M S m = Some M' ->
  exists pr tr,
    stream_tag_to_row S = Some tr /\
    param_rows_of (write_header M (unit_tags S 1)) = Some pr /\
    M' = populate_columns S (unit_tags S 1) pr tr m 0
           (unit_tags (write_header M (unit_tags S 1)) 3) (write_header M (unit_tags S 1)).
Proof.
  intros Hm H. unfold populate_sheet in H. destruct m as [|it m]; [done|].
  destruct (stream_tag_to_row S) as [tr|]; [|done].
  destruct (param_rows_of _) as [pr|] eqn:E; [|done].
  injection H as <-. by exists pr, tr.
Qed.

Lemma unit_tags_truthy ws row : Forall (fun t => truthy t = true) (unit_tags ws row).
Proof. apply header_values_truthy. Qed.

(** The unit cell of every row after one sheet pass. *)
Lemma populate_sheet_unit (M S M' : sheet) (m : list (string * string)) pr tr r :
  m <> [] -> populate_sheet M S m = Some M' -> NoDup (map fst m) ->
  param_rows_of (write_header M (unit_tags S 1)) = Some pr ->
  stream_tag_to_row S = Some tr ->
  cell M' r 3 = match unit_tags S 1 with
                | [] => cell M r 3
                | _ :: _ => apply_unit_source (unit_source S pr tr m r) (cell M r 3)
                end.
Proof.
  intros Hm H Hnd Hpr Htr.
  destruct (populate_sheet_inv M S M' m Hm H) as (pr' & tr' & Htr' & Hpr' & ->).
  rewrite Htr in Htr'. injection Htr' as <-. rewrite Hpr in Hpr'. injection Hpr' as <-.
  rewrite populate_columns_unit by (done || by eapply param_rows_of_injective).
  rewrite matched_column_after_header by apply unit_tags_truthy.
  assert (H3 : cell (write_header M (unit_tags S 1)) r 3 = cell M r 3)
    by (apply write_header_from_other; lia).
  rewrite H3. by destruct (unit_tags S 1).
Qed.

(** Columns 1 and 2 (labels and parameter names) are never written. *)
Lemma populate_sheet_names (M S M' : sheet) (m : list (string * string)) r c :
  populate_sheet M S m = Some M' -> c < 3 -> cell M' r c = cell M r c.
Proof.
  intros H Hc. destruct m as [|it m'].
  { simpl in H. by injection H as <-. }
  destruct (populate_sheet_inv M S M' (it :: m') ltac:(done) H) as (pr & tr & _ & _ & ->).
  rewrite populate_columns_frame by (intros; lia).
  apply write_header_from_other. lia.
Qed.

(** A second sheet pass leaves every unit cell as the first left it. *)
Lemma populate_sheet_unit_twice (M S M1 M2 : sheet) (m : list (string * string)) :
  populate_sheet M S m = Some M1 -> populate_sheet M1 S m = Some M2 ->
  NoDup (map fst m) -> forall r, cell M2 r 3 = cell M1 r 3.
Proof.
  intros H1 H2 Hnd r. destruct m as [|it m'].
  { simpl in H1, H2. injection H1 as <-. by injection H2 as <-. }
  destruct (populate_sheet_inv M S M1 (it :: m') ltac:(done) H1) as (pr & tr & Htr & Hpr & _).
  assert (Hpr2 : param_rows_of (write_header M1 (unit_tags S 1)) = Some pr).
  { rewrite <- Hpr. apply param_rows_of_ext. intros r'.
    unfold write_header. rewrite !write_header_from_other by lia.
    split; (eapply populate_sheet_names; [exact H1|lia]). }
  rewrite (populate_sheet_unit M1 S M2 (it :: m') pr tr r) by (done || congruence).
  rewrite (populate_sheet_unit M S M1 (it :: m') pr tr r) by (done || congruence).
  destruct (unit_tags S 1); [done|]. apply apply_unit_source_idem.
Qed.

(** ** Mapping pairs that line 71 skips *)

Lemma fold_pairs_skip sw pr tr co sc m1 m2 ws p tg :
  pr !! p = None \/ tr !! tg = None ->
  fold_left (populate_pair sw pr tr co sc) (m1 ++ (p, tg) :: m2) ws
  = fold_left (populate_pair sw pr tr co sc) (m1 ++ m2) ws.
Proof.
  intros H. rewrite !fold_left_app. cbn [fold_left]. f_equal.
  unfold populate_pair. destruct H as [-> | ->]; [done|]. by destruct (pr !! p).
Qed.

Lemma populate_columns_skip sw stags pr tr m1 m2 co tags ws p tg :
  pr !! p = None \/ tr !! tg = None ->
  populate_columns sw stags pr tr (m1 ++ (p, tg) :: m2) co tags ws
  = populate_columns sw stags pr tr (m1 ++ m2) co tags ws.
Proof.
  intros H. revert co ws. induction tags as [|t tags IH]; intros co ws; [done|].
  cbn [populate_columns]. rewrite IH. destruct (py_in t stags); [|done].
  by rewrite fold_pairs_skip.
Qed.

Lemma populate_columns_no_pairs sw stags pr tr co tags ws :
  populate_columns sw stags pr tr [] co tags ws = ws.
Proof.
  revert co ws. induction tags as [|t tags IH]; intros co ws; [done|].
  cbn [populate_columns fold_left]. rewrite IH. by destruct (py_in t stags).
Qed.

Lemma populate_sheet_nonempty (M S : sheet) (m : list (string * string)) :
  m <> [] ->
  populate_sheet M S m =
    match stream_tag_to_row S with
    | None => None
    | Some tr =>
        match param_rows_of (write_header M (unit_tags S 1)) with
        | None => None
        | Some pr =>
            Some (populate_columns S (unit_tags S 1) pr tr m 0
                    (unit_tags (write_header M (unit_tags S 1)) 3)
                    (write_header M (unit_tags S 1)))
        end
    end.
Proof. by destruct m. Qed.

(** ** The loop over the common sheets *)

Lemma populate_sheets_spec (stream_wb : workbook) mapping_dict names : forall master_wb wb,
  populate_sheets stream_wb mapping_dict names master_wb = Some wb -> NoDup names ->
  forall x,
    (In x names ->
     exists ws, populate_sheet (default ∅ (master_wb !! x)) (default ∅ (stream_wb !! x))
                  (default [] (mapping_dict !! x)) = Some ws /\ wb !! x = Some ws) /\
    (~ In x names -> wb !! x = master_wb !! x).
Proof.
  induction names as [|n names IH]; intros master_wb wb H Hnd x; simpl in H.
  { injection H as <-. split; [done|done]. }
  apply NoDup_cons in Hnd as [Hni Hnd].
  destruct (populate_sheet _ _ _) as [ws|] eqn:E; [|done].
  destruct (IH _ _ H Hnd x) as [Hin Hout]. split.
  - intros [->|Hx].
    + exists ws. split; [done|]. rewrite Hout.
      * apply lookup_insert_eq.
      * intros Hn. apply Hni, list_elem_of_In, Hn.
    + destruct (Hin Hx) as (ws' & Hws' & Hwb). exists ws'. split; [|done].
      rewrite lookup_insert_ne in Hws'; [done|].
      intros ->. apply Hni, list_elem_of_In, Hx.
  - intros Hx. rewrite Hout by (intros Hx'; apply Hx; by right).
    apply lookup_insert_ne. intros ->. apply Hx. by left.
Qed.

(** * The claims *)

(** ** C1: master columns absent from the streamtable *)

(** C1 (counterexample).  "Train-X" is a unit tag of the master header
    and not a streamtable tag, yet its header cell (row 3, column 4) is
    overwritten with the streamtable's "Train-A" (and its column then
    receives Train-A's values). *)
Lemma C1_master_tag_column_overwritten :
  In (VStr "Train-X") (unit_tags tagged_master 3) /\
  py_in (VStr "Train-X") (unit_tags pump_stream 1) = false /\
  cell tagged_master 3 4 = Some (VStr "Train-X") /\
  option_map (fun ws => cell ws 3 4) (populate_sheet tagged_master pump_stream pump_mapping)
  = Some (Some (VStr "Train-A")).
Proof. vm_compute. split; [auto|]. split; [reflexivity|]. split; reflexivity. Qed.

(** C1 (amended).  Let [i] be a position of the master unit-tag list as
    line 63 reads it, after the header rewrite of lines 38-41.  If the tag
    there is not in the streamtable's list, no cell of column [4 + i] of
    the master differs from the input, header included. *)
Theorem populate_sheet_skips_unmatched_column (M S M' : sheet)
    (m : list (string * string)) (i : nat) (t : value) :
  populate_sheet M S m = Some M' ->
  nth_error (unit_tags (write_header M (unit_tags S 1)) 3) i = Some t ->
  py_in t (unit_tags S 1) = false ->
  forall r, cell M' r (4 + i) = cell M r (4 + i).
Proof.
  intros H Hi Ht r. destruct m as [|it m'].
  { simpl in H. by injection H as <-. }
  destruct (populate_sheet_inv M S M' (it :: m') ltac:(done) H) as (pr & tr & _ & _ & ->).
  rewrite populate_columns_frame; [| lia |].
  - apply write_header_from_other. right. right.
    destruct (decide (i < length (unit_tags S 1))) as [Hlt|]; [|lia].
    exfalso. apply nth_error_Some in Hlt.
    destruct (nth_error (unit_tags S 1) i) as [t'|] eqn:E; [|done].
    rewrite (unit_tags_after_header_nth M _ i t') in Hi by (done || apply unit_tags_truthy).
    injection Hi as ->. rewrite py_in_elem in Ht; [done|]. by eapply nth_error_In.
  - intros j t' Hj Ht' Heq. assert (j = i) as -> by lia. congruence.
Qed.

(** Witness: in [tagged_master] read after the rewrite, "Train-B" at
    position 1 is unmatched, and column 5 keeps its content. *)
Lemma populate_sheet_skips_unmatched_column_witness :
  populate_sheet tagged_master pump_stream pump_mapping
    = Some (default ∅ (populate_sheet tagged_master pump_stream pump_mapping)) /\
  nth_error (unit_tags (write_header tagged_master (unit_tags pump_stream 1)) 3) 1
    = Some (VStr "Train-B") /\
  py_in (VStr "Train-B") (unit_tags pump_stream 1) = false /\
  cell (default ∅ (populate_sheet tagged_master pump_stream pump_mapping)) 3 (4 + 1)
    = cell tagged_master 3 (4 + 1).
Proof.
  assert (H1 : populate_sheet tagged_master pump_stream pump_mapping
    = Some (default ∅ (populate_sheet tagged_master pump_stream pump_mapping)))
    by (vm_compute; reflexivity).
  assert (H2 : nth_error (unit_tags (write_header tagged_master (unit_tags pump_stream 1)) 3) 1
    = Some (VStr "Train-B")) by (vm_compute; reflexivity).
  assert (H3 : py_in (VStr "Train-B") (unit_tags pump_stream 1) = false)
    by (vm_compute; reflexivity).
  split; [exact H1|]. split; [exact H2|]. split; [exact H3|].
  exact (populate_sheet_skips_unmatched_column _ _ _ _ 1 _ H1 H2 H3 3).
Defined.

(** ** C2: the header rewrite *)

(** C2.  When the mapping of a sheet is non-empty, the master header row
    3, columns 4 to 3 + n, is first overwritten with the streamtable's n
    unit tags in streamtable order (font and border are not modelled); no
    other cell is touched by that step; and the unit-tag list the value
    loop then iterates is the streamtable's list followed by the master's
    own non-empty headers right of column 3 + n, so the master's original
    headers of columns 4 to 3 + n are gone. *)
Theorem populate_sheet_rewrites_header (M S M' : sheet) (m : list (string * string)) :
  m <> [] -> populate_sheet M S m = Some M' ->
  (forall i t, nth_error (unit_tags S 1) i = Some t ->
     cell (write_header M (unit_tags S 1)) 3 (4 + i) = Some t) /\
  (forall r c, r <> 3 \/ c < 4 \/ 4 + length (unit_tags S 1) <= c ->
     cell (write_header M (unit_tags S 1)) r c = cell M r c) /\
  exists param_rows stream_rows,
    M' = populate_columns S (unit_tags S 1) param_rows stream_rows m 0
           (unit_tags S 1 ++
            header_values M 3 (seq (4 + length (unit_tags S 1))
                                   (max_col M - 3 - length (unit_tags S 1))))
           (write_header M (unit_tags S 1)).
Proof.
  intros Hm H. split; [|split].
  - intros i t Hi. by apply write_header_from_nth.
  - intros r c Hrc. apply write_header_from_other. lia.
  - destruct (populate_sheet_inv M S M' m Hm H) as (pr & tr & _ & _ & ->).
    exists pr, tr. by rewrite unit_tags_after_header by apply unit_tags_truthy.
Qed.

(** Witness: the spec's "Pump-101" example. *)
Lemma populate_sheet_rewrites_header_witness :
  pump_mapping <> [] /\
  populate_sheet pump_master pump_stream pump_mapping
    = Some (default ∅ (populate_sheet pump_master pump_stream pump_mapping)) /\
  cell (write_header pump_master (unit_tags pump_stream 1)) 3 4 = Some (VStr "Train-A").
Proof.
  assert (H1 : pump_mapping <> []) by discriminate.
  assert (H2 : populate_sheet pump_master pump_stream pump_mapping
    = Some (default ∅ (populate_sheet pump_master pump_stream pump_mapping)))
    by (vm_compute; reflexivity).
  split; [exact H1|]. split; [exact H2|].
  destruct (populate_sheet_rewrites_header _ _ _ _ H1 H2) as [Hh _].
  apply (Hh 0). vm_compute. reflexivity.
Defined.

(** ** C3: reading a unit-tag header *)

(** C3 (failing input).  Streamtable row 1 holds "Train-A" in column 4,
    nothing in column 5 and "Train-B" in column 6.  Line 37 skips the
    empty cell instead of stopping there, so "Train-B" is collected at
    position 1, which is column 6, not 4 + 1.  Line 69 still takes position
    1 for column 5: the master's "Train-B" column is filled from the empty
    streamtable column 5, and the streamtable value 7 under "Train-B" never
    reaches the master. *)
Theorem unit_tags_skip_gap :
  unit_tags gap_stream 1 = [VStr "Train-A"; VStr "Train-B"] /\
  cell gap_stream 1 5 = None /\
  cell gap_stream 1 6 = Some (VStr "Train-B") /\
  py_index (VStr "Train-B") (unit_tags gap_stream 1) + 4 = 5 /\
  cell gap_stream 3 6 = Some (VInt 7) /\
  option_map (fun ws => (cell ws 3 5, cell ws 10 5, cell ws 10 6))
    (populate_sheet pump_master gap_stream pump_mapping)
  = Some (Some (VStr "Train-B"), None, None).
Proof. vm_compute. repeat split. Qed.

(** ** C4: the list of missing sheets *)



(** C4 (failing input).  Master sheets "Pump-101" and "Tank-201", an empty
    streamtable.  Line 25 returns [list(master_sheets - stream_sheets)],
    never sorted: with the set enumerated as stdpp's [elements] does, a
    valid iteration order, the result is ["Tank-201"; "Pump-101"]. *)
Theorem missing_sheets_unsorted :
  option_map snd (populate_syscad_inputs elements two_sheet_master ∅ ∅)
  = Some ["Tank-201"; "Pump-101"].
Proof. vm_compute. reflexivity. Qed.

(** ** C5: a parameter name repeated in the block *)

(** C5 (counterexample).  "Flow" is the stripped name of rows 2 and 3 of
    the block; line 61 assigns [param_rows[pname.strip()] = r] on each, so
    the lookup keeps row 3, the later one. *)
Lemma C5_repeated_name_keeps_last_row :
  syscad_block duplicate_sheet 1 4 = true /\
  block_name duplicate_sheet 2 = Some "Flow" /\
  block_name duplicate_sheet 3 = Some "Flow" /\
  option_map (fun pr => pr !! "Flow") (param_rows_of duplicate_sheet) = Some (Some 3).
Proof. vm_compute. repeat split. Qed.

(** C5 (amended).  Let rows [o] to [e - 1] be the "SysCAD Inputs" block
    ([o] the first row labelled "SysCAD Inputs", [e] the first later row
    labelled "Engineering Inputs", or one past the last row), with no
    parameter name of a kind [.strip()] refuses.  If [k] is the stripped
    name of row [r] and of no later row of the block, the pass does not
    fail and the lookup maps [k] to [r]: the last occurrence wins. *)
Theorem param_rows_last_occurrence (ws : sheet) (o e r : nat) (k : string) :
  syscad_block ws o e = true -> o <= r < e -> block_name ws r = Some k ->
  (forall r', r < r' < e -> block_name ws r' <> Some k) ->
  exists pr, param_rows_of ws = Some pr /\ pr !! k = Some r.
Proof.
  intros Hb Hr Hk Hlast.
  exact (proj2 (param_rows_of_block_lookup ws o e r k Hb Hr Hk) Hlast).
Qed.

(** Witness: in [duplicate_sheet] the lookup maps "Flow" to row 3. *)
Lemma param_rows_last_occurrence_witness :
  syscad_block duplicate_sheet 1 4 = true /\ 1 <= 3 < 4 /\
  block_name duplicate_sheet 3 = Some "Flow" /\
  (forall r', 3 < r' < 4 -> block_name duplicate_sheet r' <> Some "Flow") /\
  exists pr, param_rows_of duplicate_sheet = Some pr /\ pr !! "Flow" = Some 3.
Proof.
  assert (H1 : syscad_block duplicate_sheet 1 4 = true) by (vm_compute; reflexivity).
  assert (H2 : 1 <= 3 < 4) by lia.
  assert (H3 : block_name duplicate_sheet 3 = Some "Flow") by (vm_compute; reflexivity).
  assert (H4 : forall r', 3 < r' < 4 -> block_name duplicate_sheet r' <> Some "Flow")
    by (intros r' Hr'; lia).
  split; [exact H1|]. split; [exact H2|]. split; [exact H3|]. split; [exact H4|].
  exact (param_rows_last_occurrence duplicate_sheet 1 4 3 "Flow" H1 H2 H3 H4).
Defined.

(** ** C6: the row that opens the block *)

(** C6 (counterexample).  Row 1 carries the "SysCAD Inputs" label and the
    name "Opening".  Line 55 sets [in_syscad] and line 56 tests it on the
    same row, so "Opening" is recorded, both by [extract_syscad_params]
    of app.py and in the lookup of rev2. *)
Lemma C6_opening_row_recorded :
  syscad_block opening_sheet 1 3 = true /\
  label_has "SysCAD Inputs" (cell opening_sheet 1 1) = true /\
  extract_syscad_params opening_sheet = Some ["Opening"; "Flow"] /\
  option_map (fun pr => pr !! "Opening") (param_rows_of opening_sheet) = Some (Some 1).
Proof. vm_compute. repeat split. Qed.

(** C6 (amended).  For a block as in C5 whose opening row [o] does not
    also close it ([o < e]), the stripped column-2 name [k] of the opening
    row is in the list [extract_syscad_params] returns, and, unless a
    later row of the block has the same name, the lookup maps [k] to [o]. *)
Theorem opening_row_recorded (ws : sheet) (o e : nat) (k : string) :
  syscad_block ws o e = true -> o < e -> block_name ws o = Some k ->
  (exists ps, extract_syscad_params ws = Some ps /\ In k ps) /\
  ((forall r', o < r' < e -> block_name ws r' <> Some k) ->
   exists pr, param_rows_of ws = Some pr /\ pr !! k = Some o).
Proof.
  intros Hb Ho Hk. apply (param_rows_of_block_lookup ws o e o k Hb); [lia | exact Hk].
Qed.

(** Witness: "Opening" in [opening_sheet]. *)
Lemma opening_row_recorded_witness :
  syscad_block opening_sheet 1 3 = true /\ 1 < 3 /\
  block_name opening_sheet 1 = Some "Opening" /\
  (exists ps, extract_syscad_params opening_sheet = Some ps /\ In "Opening" ps) /\
  ((forall r', 1 < r' < 3 -> block_name opening_sheet r' <> Some "Opening") ->
   exists pr, param_rows_of opening_sheet = Some pr /\ pr !! "Opening" = Some 1).
Proof.
  assert (H1 : syscad_block opening_sheet 1 3 = true) by (vm_compute; reflexivity).
  assert (H2 : 1 < 3) by lia.
  assert (H3 : block_name opening_sheet 1 = Some "Opening") by (vm_compute; reflexivity).
  split; [exact H1|]. split; [exact H2|]. split; [exact H3|].
  exact (opening_row_recorded opening_sheet 1 3 "Opening" H1 H2 H3).
Defined.

(** ** C7: unit reconciliation *)

(** C7 (counterexample).  The streamtable has no unit tag in row 1, so the
    loop of line 66 never enters its body and the unit update of lines
    82-86, nested inside it, never runs: the master keeps "kg/h" although
    the mapped tag's unit is "m3/h". *)
Lemma C7_no_shared_column_no_unit_update :
  unit_tags headerless_stream 1 = [] /\
  cell headerless_stream 3 3 = Some (VStr "FT-101") /\
  cell headerless_stream 3 2 = Some (VStr "m3/h") /\
  cell pump_master 10 2 = Some (VStr "Flow Rate") /\
  cell pump_master 10 3 = Some (VStr "kg/h") /\
  option_map (fun ws => cell ws 10 3) (populate_sheet pump_master headerless_stream pump_mapping)
  = Some (Some (VStr "kg/h")).
Proof. vm_compute. repeat split. Qed.

(** C7 (amended).  Take a mapping pair (parameter [p], tag [tg]) that
    survives line 71: [p] on master row [r] and [tg] on streamtable row
    [sr].  If the streamtable has at least one unit tag, the master unit
    cell (row [r], column 3) ends up as the streamtable unit (column 2 of
    row [sr]) when that unit is non-empty and differs from the master's
    (Python [!=]), and as before otherwise; if the streamtable has no unit
    tag it is left as it was, whatever the units. *)
Theorem populate_sheet_unit_overwrite (M S M' : sheet) (m : list (string * string))
    (pr tr : gmap string nat) (p tg : string) (r sr : nat) :
  populate_sheet M S m = Some M' -> NoDup (map fst m) ->
  param_rows_of (write_header M (unit_tags S 1)) = Some pr ->
  stream_tag_to_row S = Some tr ->
  In (p, tg) m -> pr !! p = Some r -> tr !! tg = Some sr ->
  cell M' r 3 =
    match unit_tags S 1 with
    | [] => cell M r 3
    | _ :: _ =>
        match cell S sr 2 with
        | Some u =>
            if truthy u && negb (py_eq_opt (cell M r 3) (Some u)) then Some u
            else cell M r 3
        | None => cell M r 3
        end
    end.
Proof.
  intros H Hnd Hpr Htr Hin Hp Htg.
  assert (Hm : m <> []) by (intros ->; done).
  rewrite (populate_sheet_unit M S M' m pr tr r Hm H Hnd Hpr Htr).
  destruct (unit_tags S 1); [done|].
  rewrite (unit_source_pair S pr tr m p tg r sr Hnd) by (done || by eapply param_rows_of_injective).
  unfold apply_unit_source, unit_update. by destruct (cell S sr 2).
Qed.

(** Witness: "Flow Rate" and "FT-101" in the spec's example; the unit
    becomes "m3/h". *)
Lemma populate_sheet_unit_overwrite_witness :
  let M' := default ∅ (populate_sheet pump_master pump_stream pump_mapping) in
  let pr := default ∅ (param_rows_of (write_header pump_master (unit_tags pump_stream 1))) in
  let tr := default ∅ (stream_tag_to_row pump_stream) in
  populate_sheet pump_master pump_stream pump_mapping = Some M' /\
  NoDup (map fst pump_mapping) /\
  param_rows_of (write_header pump_master (unit_tags pump_stream 1)) = Some pr /\
  stream_tag_to_row pump_stream = Some tr /\
  In ("Flow Rate", "FT-101") pump_mapping /\ pr !! "Flow Rate" = Some 10 /\
  tr !! "FT-101" = Some 3 /\
  cell M' 10 3 =
    match unit_tags pump_stream 1 with
    | [] => cell pump_master 10 3
    | _ :: _ =>
        match cell pump_stream 3 2 with
        | Some u =>
            if truthy u && negb (py_eq_opt (cell pump_master 10 3) (Some u)) then Some u
            else cell pump_master 10 3
        | None => cell pump_master 10 3
        end
    end.
Proof.
  intros M' pr tr.
  assert (H1 : populate_sheet pump_master pump_stream pump_mapping = Some M')
    by (vm_compute; reflexivity).
  assert (H2 : NoDup (map fst pump_mapping)) by (simpl; apply NoDup_singleton).
  assert (H3 : param_rows_of (write_header pump_master (unit_tags pump_stream 1)) = Some pr)
    by (vm_compute; reflexivity).
  assert (H4 : stream_tag_to_row pump_stream = Some tr) by (vm_compute; reflexivity).
  assert (H5 : In ("Flow Rate", "FT-101") pump_mapping) by (vm_compute; left; reflexivity).
  assert (H6 : pr !! "Flow Rate" = Some 10) by (vm_compute; reflexivity).
  assert (H7 : tr !! "FT-101" = Some 3) by (vm_compute; reflexivity).
  do 7 (split; [assumption|]).
  exact (populate_sheet_unit_overwrite _ _ _ _ _ _ _ _ _ _ H1 H2 H3 H4 H5 H6 H7).
Defined.

(** ** C8: the value written for a matched column *)

(** C8.  Take position [i] of the master unit-tag list (read after the
    header rewrite, as line 63 does) whose tag [t] is a streamtable tag,
    and a pair (parameter [p] on master row [r], tag [tg] on streamtable
    row [sr]) that survives line 71; the source cell is at the column line
    69 computes.  If the source cell is empty, the destination cell
    (row [r], column [4 + i]) keeps the value it had before the loop
    (which is the input's unless [r] is the header row 3); otherwise it
    receives the source value, rounded to 2 decimals (ties to even, as
    Python's [round] on the exact value) when it is a float, verbatim
    when it is an integer, a string or a boolean. *)
Theorem populate_sheet_value_written (M S M' : sheet) (m : list (string * string))
    (pr tr : gmap string nat) (i : nat) (t : value) (p tg : string) (r sr : nat) :
  populate_sheet M S m = Some M' -> NoDup (map fst m) ->
  param_rows_of (write_header M (unit_tags S 1)) = Some pr ->
  stream_tag_to_row S = Some tr ->
  nth_error (unit_tags (write_header M (unit_tags S 1)) 3) i = Some t ->
  py_in t (unit_tags S 1) = true ->
  In (p, tg) m -> pr !! p = Some r -> tr !! tg = Some sr ->
  let source := cell S sr (py_index t (unit_tags S 1) + 4) in
  (source = None ->
     cell M' r (4 + i) = cell (write_header M (unit_tags S 1)) r (4 + i) /\
     (r <> 3 -> cell M' r (4 + i) = cell M r (4 + i))) /\
  (forall v, source = Some v ->
     cell M' r (4 + i) = Some (match v with VFloat q => VFloat (round2 q) | _ => v end)).
Proof.
  intros H Hnd Hpr Htr Hi Ht Hin Hp Htg source.
  assert (Hm : m <> []) by (intros ->; done).
  destruct (populate_sheet_inv M S M' m Hm H) as (pr' & tr' & Htr' & Hpr' & ->).
  rewrite Htr in Htr'. injection Htr' as <-. rewrite Hpr in Hpr'. injection Hpr' as <-.
  set (M0 := write_header M (unit_tags S 1)) in *.
  destruct (nth_error_split _ _ Hi) as (l1 & l2 & Htags & Hlen).
  rewrite Htags, populate_columns_app. cbn [populate_columns]. rewrite Ht.
  set (W1 := populate_columns S (unit_tags S 1) pr tr m 0 l1 M0).
  assert (HW1 : cell W1 r (4 + i) = cell M0 r (4 + i)).
  { apply populate_columns_frame; [lia|].
    intros j t' Hj _. assert (j < length l1) by (apply nth_error_Some; congruence). lia. }
  assert (Hout : forall ws, cell (populate_columns S (unit_tags S 1) pr tr m (Datatypes.S (0 + length l1))
                                   l2 ws) r (4 + i) = cell ws r (4 + i)).
  { intros ws. apply populate_columns_frame; [lia|]. intros; lia. }
  rewrite Hout. replace (4 + i) with (0 + length l1 + 4) by lia.
  rewrite (fold_pairs_value S pr tr (0 + length l1) _ m W1 p tg r sr)
    by (done || by eapply param_rows_of_injective).
  replace (0 + length l1 + 4) with (4 + i) by lia. fold source.
  split.
  - intros ->. rewrite HW1. split; [done|].
    intros Hr. apply write_header_from_other. lia.
  - intros v ->. by destruct v.
Qed.

(** Witness: the float 12.345 under "Train-A" becomes 12.34 in the
    master. *)
Lemma populate_sheet_value_written_witness :
  let M0 := write_header pump_master (unit_tags pump_stream 1) in
  let M' := default ∅ (populate_sheet pump_master pump_stream pump_mapping) in
  let pr := default ∅ (param_rows_of M0) in
  let tr := default ∅ (stream_tag_to_row pump_stream) in
  populate_sheet pump_master pump_stream pump_mapping = Some M' /\
  NoDup (map fst pump_mapping) /\
  param_rows_of M0 = Some pr /\
  stream_tag_to_row pump_stream = Some tr /\
  nth_error (unit_tags M0 3) 0 = Some (VStr "Train-A") /\
  py_in (VStr "Train-A") (unit_tags pump_stream 1) = true /\
  In ("Flow Rate", "FT-101") pump_mapping /\ pr !! "Flow Rate" = Some 10 /\
  tr !! "FT-101" = Some 3 /\
  cell pump_stream 3 (py_index (VStr "Train-A") (unit_tags pump_stream 1) + 4)
    = Some (VFloat (12345 # 1000)) /\
  cell M' 10 (4 + 0) = Some (VFloat (round2 (12345 # 1000))).
Proof.
  intros M0 M' pr tr.
  assert (H1 : populate_sheet pump_master pump_stream pump_mapping = Some M')
    by (vm_compute; reflexivity).
  assert (H2 : NoDup (map fst pump_mapping)) by (simpl; apply NoDup_singleton).
  assert (H3 : param_rows_of M0 = Some pr) by (vm_compute; reflexivity).
  assert (H4 : stream_tag_to_row pump_stream = Some tr) by (vm_compute; reflexivity).
  assert (H5 : nth_error (unit_tags M0 3) 0 = Some (VStr "Train-A")) by (vm_compute; reflexivity).
  assert (H6 : py_in (VStr "Train-A") (unit_tags pump_stream 1) = true)
    by (vm_compute; reflexivity).
  assert (H7 : In ("Flow Rate", "FT-101") pump_mapping) by (vm_compute; left; reflexivity).
  assert (H8 : pr !! "Flow Rate" = Some 10) by (vm_compute; reflexivity).
  assert (H9 : tr !! "FT-101" = Some 3) by (vm_compute; reflexivity).
  assert (H10 : cell pump_stream 3 (py_index (VStr "Train-A") (unit_tags pump_stream 1) + 4)
    = Some (VFloat (12345 # 1000))) by (vm_compute; reflexivity).
  do 10 (split; [assumption|]).
  exact (proj2 (populate_sheet_value_written _ _ _ _ _ _ 0 _ _ _ _ _
                  H1 H2 H3 H4 H5 H6 H7 H8 H9) _ H10).
Defined.

(** ** C9: mapping pairs with an unknown parameter or tag *)

(** C9.  Let the pair (parameter [p], tag [tg]) be skipped by line 71:
    [p] is not in the parameter lookup, or [tg] is not in the tag lookup.
    Inserting it anywhere in a non-empty mapping changes nothing: the
    sheet pass gives the same result, fails or not exactly as without it,
    and every other pair is processed as without it.  A mapping made of
    that pair alone writes no cell for it: the only change is the header
    rewrite of lines 38-41 that any non-empty mapping triggers. *)
Theorem populate_sheet_skips_missing_pair (M S : sheet) (m1 m2 : list (string * string))
    (p tg : string) :
  (forall pr, param_rows_of (write_header M (unit_tags S 1)) = Some pr -> pr !! p = None) \/
  (forall tr, stream_tag_to_row S = Some tr -> tr !! tg = None) ->
  (m1 ++ m2 <> [] ->
   populate_sheet M S (m1 ++ (p, tg) :: m2) = populate_sheet M S (m1 ++ m2)) /\
  (m1 ++ m2 = [] -> forall M',
   populate_sheet M S (m1 ++ (p, tg) :: m2) = Some M' ->
   M' = write_header M (unit_tags S 1)).
Proof.
  intros Hmiss.
  assert (Hcons : m1 ++ (p, tg) :: m2 <> []) by (destruct m1; done).
  rewrite (populate_sheet_nonempty M S _ Hcons).
  destruct (stream_tag_to_row S) as [tr|] eqn:Etr;
    [|split; [intros Hne; by rewrite populate_sheet_nonempty, Etr | done]].
  destruct (param_rows_of _) as [pr|] eqn:Epr;
    [|split; [intros Hne; by rewrite populate_sheet_nonempty, Etr, Epr | done]].
  assert (Hskip : pr !! p = None \/ tr !! tg = None)
    by (destruct Hmiss as [Hm|Hm]; [left; by apply Hm | right; by apply Hm]).
  rewrite populate_columns_skip by exact Hskip. split.
  - intros Hne. by rewrite (populate_sheet_nonempty M S _ Hne), Etr, Epr.
  - intros Hnil M' [= <-]. rewrite Hnil. apply populate_columns_no_pairs.
Qed.

(** Witness: the pair ("Level", "FT-999") added to the spec's example;
    "FT-999" is no streamtable tag. *)
Lemma populate_sheet_skips_missing_pair_witness :
  ((forall pr, param_rows_of (write_header pump_master (unit_tags pump_stream 1)) = Some pr ->
      pr !! "Level" = None) \/
   (forall tr, stream_tag_to_row pump_stream = Some tr -> tr !! "FT-999" = None)) /\
  (pump_mapping ++ [] <> [] ->
   populate_sheet pump_master pump_stream (pump_mapping ++ [("Level", "FT-999")])
   = populate_sheet pump_master pump_stream (pump_mapping ++ [])) /\
  (pump_mapping ++ [] = [] -> forall M',
   populate_sheet pump_master pump_stream (pump_mapping ++ [("Level", "FT-999")]) = Some M' ->
   M' = write_header pump_master (unit_tags pump_stream 1)).
Proof.
  assert (H1 : (forall pr, param_rows_of (write_header pump_master (unit_tags pump_stream 1))
                             = Some pr -> pr !! "Level" = None) \/
               (forall tr, stream_tag_to_row pump_stream = Some tr -> tr !! "FT-999" = None)).
  { right. intros tr Htr. vm_compute in Htr. injection Htr as <-. vm_compute. reflexivity. }
  split; [exact H1|].
  exact (populate_sheet_skips_missing_pair pump_master pump_stream pump_mapping []
           "Level" "FT-999" H1).
Defined.

(** ** C10: running the pass twice *)

(** C10.  Feed the master workbook of a first run back into a second run
    with the same streamtable and mapping (Python dicts, so no parameter
    is mapped twice in a sheet).  Whatever order the name sets are
    iterated in, every unit cell (column 3, any row, any sheet) after the
    second run equals its value after the first. *)
Theorem populate_twice_units_stable (set_list : gset string -> list string)
    (D S : workbook) (mapping_dict : gmap string (list (string * string)))
    (D1 D2 : workbook) (miss1 miss2 : list string) :
  (forall s, set_list s ≡ₚ elements s) ->
  (forall x ms, mapping_dict !! x = Some ms -> NoDup (map fst ms)) ->
  populate_syscad_inputs set_list D S mapping_dict = Some (D1, miss1) ->
  populate_syscad_inputs set_list D1 S mapping_dict = Some (D2, miss2) ->
  forall x r, cell (default ∅ (D2 !! x)) r 3 = cell (default ∅ (D1 !! x)) r 3.
Proof.
  intros Hperm Hnd H1 H2 x r. unfold populate_syscad_inputs in H1, H2.
  destruct (populate_sheets S mapping_dict (set_list (dom D ∩ dom S)) D) as [W1|] eqn:E1;
    [|done].
  injection H1 as <- _.
  destruct (populate_sheets S mapping_dict (set_list (dom W1 ∩ dom S)) W1) as [W2|] eqn:E2;
    [|done].
  injection H2 as <- _.
  assert (HNoDup : forall s, NoDup (set_list s))
    by (intros s; rewrite (Hperm s); apply NoDup_elements).
  assert (HIn : forall s y, In y (set_list s) <-> y ∈ s)
    by (intros s y; by rewrite <- list_elem_of_In, (Hperm s), elem_of_elements).
  destruct (populate_sheets_spec S mapping_dict _ D W1 E1 (HNoDup _) x) as [Hin1 Hout1].
  destruct (populate_sheets_spec S mapping_dict _ W1 W2 E2 (HNoDup _) x) as [Hin2 Hout2].
  destruct (in_dec string_dec x (set_list (dom W1 ∩ dom S))) as [Hx2|Hx2];
    [|by rewrite (Hout2 Hx2)].
  destruct (Hin2 Hx2) as (ws2 & Hws2 & ->).
  assert (Hx1 : In x (set_list (dom D ∩ dom S))).
  { apply HIn. apply HIn in Hx2. apply elem_of_intersection in Hx2 as [HW HS].
    apply elem_of_intersection. split; [|done].
    destruct (in_dec string_dec x (set_list (dom D ∩ dom S))) as [Hx1|Hx1].
    - apply HIn in Hx1. by apply elem_of_intersection in Hx1 as [? _].
    - rewrite elem_of_dom, <- (Hout1 Hx1). by apply elem_of_dom. }
  destruct (Hin1 Hx1) as (ws1 & Hws1 & HW1). rewrite HW1 in Hws2 |- *. simpl in Hws2 |- *.
  apply (populate_sheet_unit_twice _ _ _ _ _ Hws1 Hws2).
  destruct (mapping_dict !! x) as [ms|] eqn:Ems; simpl; [by apply (Hnd x ms)|constructor].
Qed.

(** Witness: the spec's example run twice. *)
Lemma populate_twice_units_stable_witness :
  let run1 := default (∅, []) (populate_syscad_inputs elements pump_workbook
                                 pump_stream_workbook pump_mapping_dict) in
  let run2 := default (∅, []) (populate_syscad_inputs elements run1.1
                                 pump_stream_workbook pump_mapping_dict) in
  (forall s : gset string, elements s ≡ₚ elements s) /\
  (forall x ms, pump_mapping_dict !! x = Some ms -> NoDup (map fst ms)) /\
  populate_syscad_inputs elements pump_workbook pump_stream_workbook pump_mapping_dict
    = Some run1 /\
  populate_syscad_inputs elements run1.1 pump_stream_workbook pump_mapping_dict = Some run2 /\
  cell (default ∅ (run2.1 !! "Pump-101")) 10 3 = cell (default ∅ (run1.1 !! "Pump-101")) 10 3.
Proof.
  intros run1 run2.
  assert (H1 : forall s : gset string, elements s ≡ₚ elements s) by (intros s; reflexivity).
  assert (H2 : forall x ms, pump_mapping_dict !! x = Some ms -> NoDup (map fst ms)).
  { intros x ms H. unfold pump_mapping_dict in H.
    destruct (decide (x = "Pump-101")) as [->|Hne].
    - rewrite lookup_insert_eq in H. injection H as <-. simpl. apply NoDup_singleton.
    - rewrite lookup_insert_ne in H by congruence. done. }
  assert (H3 : populate_syscad_inputs elements pump_workbook pump_stream_workbook
                 pump_mapping_dict = Some run1) by (vm_compute; reflexivity).
  assert (H4 : populate_syscad_inputs elements run1.1 pump_stream_workbook pump_mapping_dict
                 = Some run2) by (vm_compute; reflexivity).
  split; [exact H1|]. split; [exact H2|]. split; [exact H3|]. split; [exact H4|].
  destruct run1 as [D1 miss1], run2 as [D2 miss2].
  exact (populate_twice_units_stable elements pump_workbook pump_stream_workbook
           pump_mapping_dict D1 D2 miss1 miss2 H1 H2 H3 H4 "Pump-101" 10).
Defined.

(** * Further properties of the code *)

(** ** Python's [sorted] on strings *)

Lemma insert_string_perm x l : insert_string x l ≡ₚ x :: l.
Proof.
  induction l as [|y l IH]; simpl; [done|].
  destruct (String.leb x y); [done|]. rewrite IH. apply perm_swap.
Qed.

Lemma sorted_strings_perm l : sorted_strings l ≡ₚ l.
Proof. induction l as [|x l IH]; simpl; [done|]. by rewrite insert_string_perm, IH. Qed.

Lemma insert_string_sorted x l :
  Sorted (fun a b => String.leb a b = true) l ->
  Sorted (fun a b => String.leb a b = true) (insert_string x l).
Proof.
  induction l as [|y l IH]; intros H; simpl; [by repeat constructor|].
  destruct (String.leb x y) eqn:E; [by constructor; [|constructor]|].
  assert (Hyx : String.leb y x = true)
    by (destruct (String.leb_total x y) as [H'|H']; [congruence|done]).
  apply Sorted_inv in H as [Hl Hhd]. constructor; [by apply IH|].
  destruct l as [|z l']; simpl; [by constructor|].
  destruct (String.leb x z); constructor; [done|]. by apply HdRel_inv in Hhd.
Qed.

Lemma sorted_strings_sorted l : Sorted (fun a b => String.leb a b = true) (sorted_strings l).
Proof. induction l as [|x l IH]; simpl; [constructor|]. by apply insert_string_sorted. Qed.

(** ** app.py's parameter list and rev2's parameter lookup *)

Lemma scan_extract_agree ws rows : forall b acc ps,
  (forall k, is_Some (acc !! k) <-> In k ps) ->
  match scan_param_rows ws rows b acc, extract_params_from ws rows b ps with
  | Some pr, Some ps' => forall k, is_Some (pr !! k) <-> In k ps'
  | None, None => True
  | _, _ => False
  end.
Proof.
  induction rows as [|r rows IH]; intros b acc ps H; simpl; [done|].
  destruct (b || label_has "SysCAD Inputs" (cell ws r 1)); [|by apply IH].
  destruct (label_has "Engineering Inputs" (cell ws r 1)); [done|].
  destruct (cell ws r 2) as [v|]; [|by apply IH].
  destruct (truthy v); [|by apply IH].
  destruct (strip_value v) as [k|]; [|done].
  apply IH. intros k'. rewrite in_app_iff. simpl.
  destruct (decide (k = k')) as [->|Hne].
  - rewrite lookup_insert_eq. split; [by right; left|done].
  - rewrite lookup_insert_ne by done. rewrite H. split; [by left|].
    intros [?|[?|[]]]; [done|congruence].
Qed.

(** X2.  app.py's [extract_syscad_params] and rev2's parameter lookup
    (lines 51-61, built after the header rewrite of lines 38-41, whatever
    tags it writes) raise on the same sheets; otherwise every name the
    mapping page offers for a sheet is a key of the lookup rev2 uses, and
    every key of that lookup is offered. *)
Theorem app_params_agree_with_param_rows (ws : sheet) (tags : list value) :
  match extract_syscad_params ws, param_rows_of (write_header ws tags) with
  | Some ps, Some pr => forall k, In k ps <-> is_Some (pr !! k)
  | None, None => True
  | _, _ => False
  end.
Proof.
  rewrite (param_rows_of_ext (write_header ws tags) ws)
    by (intros r; unfold write_header; rewrite !write_header_from_other by lia; done).
  assert (H0 : forall k, is_Some ((∅ : gmap string nat) !! k) <-> In k []).
  { intros k. rewrite lookup_empty. split; [by intros [? ?]|done]. }
  pose proof (scan_extract_agree ws (seq 1 (max_row ws)) false ∅ [] H0) as H.
  unfold extract_syscad_params, param_rows_of.
  destruct (scan_param_rows _ _ _ _), (extract_params_from _ _ _ _);
    try done; intros k; symmetry; apply H.
Qed.

(** ** app.py's tag list and rev2's tag lookup *)

Lemma tag_set_rows_agree ws rows : forall s acc,
  (forall k, k ∈ s <-> is_Some (acc !! k)) ->
  match tag_set_from ws rows s, tag_rows_from ws rows acc with
  | Some s', Some tr => forall k, k ∈ s' <-> is_Some (tr !! k)
  | None, None => True
  | _, _ => False
  end.
Proof.
  induction rows as [|r rows IH]; intros s acc H; simpl; [done|].
  destruct (cell ws r 3) as [v|]; [|by apply IH].
  destruct (truthy v); [|by apply IH].
  destruct (strip_value v) as [k|]; [|done].
  apply IH. intros k'. rewrite elem_of_union, elem_of_singleton.
  destruct (decide (k = k')) as [->|Hne].
  - rewrite lookup_insert_eq. split; [done|by left].
  - rewrite lookup_insert_ne by done. rewrite <- H. split; [|by right].
    intros [?|?]; [congruence|done].
Qed.

(** X3.  The tag list a select box of the mapping page offers for a sheet
    (app.py line 170) and rev2's tag lookup (lines 44-48) raise on the
    same streamtable sheets; otherwise the list is sorted, has no repeated
    tag, and holds exactly the keys of the lookup, so any tag picked there
    is found by line 71.  This holds for every iteration order of the
    set. *)
Theorem app_tag_list_agrees (set_list : gset string -> list string) :
  (forall s, set_list s ≡ₚ elements s) ->
  forall ws,
  match tag_list set_list ws, stream_tag_to_row ws with
  | Some tl, Some tr =>
      Sorted (fun a b => String.leb a b = true) tl /\ NoDup tl /\
      forall k, In k tl <-> is_Some (tr !! k)
  | None, None => True
  | _, _ => False
  end.
Proof.
  intros Hperm ws. unfold tag_list, stream_tag_to_row.
  assert (H0 : forall k, k ∈ (∅ : gset string) <-> is_Some ((∅ : gmap string nat) !! k)).
  { intros k. rewrite lookup_empty. split; [set_solver|by intros [? ?]]. }
  pose proof (tag_set_rows_agree ws (seq 3 (max_row ws - 2)) ∅ ∅ H0) as H.
  destruct (tag_set_from _ _ _) as [s|], (tag_rows_from _ _ _) as [tr|]; try done.
  split; [apply sorted_strings_sorted|]. split.
  - rewrite sorted_strings_perm, (Hperm s). apply NoDup_elements.
  - intros k. rewrite <- H, <- list_elem_of_In, sorted_strings_perm, (Hperm s).
    apply elem_of_elements.
Qed.

(** Witness: the streamtable of the spec's example. *)
Lemma app_tag_list_agrees_witness :
  (forall s : gset string, elements s ≡ₚ elements s) /\
  match tag_list elements pump_stream, stream_tag_to_row pump_stream with
  | Some tl, Some tr =>
      Sorted (fun a b => String.leb a b = true) tl /\ NoDup tl /\
      forall k, In k tl <-> is_Some (tr !! k)
  | None, None => True
  | _, _ => False
  end.
Proof.
  assert (H1 : forall s : gset string, elements s ≡ₚ elements s) by (intros s; reflexivity).
  split; [exact H1|]. exact (app_tag_list_agrees elements H1 pump_stream).
Defined.

(** ** app.py's equipment lists *)



(** ** Sheets the pass leaves alone *)

(** X5.  [populate_syscad_inputs] neither adds nor removes a sheet, and a
    master sheet absent from the streamtable, or whose mapping entry is
    missing or empty (lines 32-34), comes back exactly as it was. *)
Theorem populate_keeps_unmapped_sheets (set_list : gset string -> list string)
    (D S : workbook) (mapping_dict : gmap string (list (string * string)))
    (wb : workbook) (missing : list string) :
  (forall s, set_list s ≡ₚ elements s) ->
  populate_syscad_inputs set_list D S mapping_dict = Some (wb, missing) ->
  (forall x, is_Some (wb !! x) <-> is_Some (D !! x)) /\
  (forall x, S !! x = None \/ default [] (mapping_dict !! x) = [] -> wb !! x = D !! x).
Proof.
  intros Hperm H. unfold populate_syscad_inputs in H.
  destruct (populate_sheets S mapping_dict (set_list (dom D ∩ dom S)) D) as [W|] eqn:E;
    [|done].
  injection H as <- _.
  assert (HNoDup : NoDup (set_list (dom D ∩ dom S)))
    by (rewrite (Hperm _); apply NoDup_elements).
  assert (HIn : forall y, In y (set_list (dom D ∩ dom S)) <-> y ∈ dom D ∩ dom S)
    by (intros y; by rewrite <- list_elem_of_In, (Hperm _), elem_of_elements).
  assert (Hx : forall x, (In x (set_list (dom D ∩ dom S)) ->
     exists M T ws, D !! x = Some M /\ S !! x = Some T /\
       populate_sheet M T (default [] (mapping_dict !! x)) = Some ws /\ W !! x = Some ws) /\
     (~ In x (set_list (dom D ∩ dom S)) -> W !! x = D !! x)).
  { intros x. destruct (populate_sheets_spec S mapping_dict _ D W E HNoDup x) as [Hin Hout].
    split; [|exact Hout]. intros Hx.
    destruct (Hin Hx) as (ws & Hws & HW).
    apply HIn, elem_of_intersection in Hx as [HD HS].
    apply elem_of_dom in HD as [M HM], HS as [T HT].
    exists M, T, ws. rewrite HM, HT in Hws. by split; [|split]. }
  split.
  - intros x. destruct (in_dec string_dec x (set_list (dom D ∩ dom S))) as [Hin|Hin].
    + destruct (proj1 (Hx x) Hin) as (M & T & ws & HM & _ & _ & HW).
      by rewrite HM, HW.
    + by rewrite (proj2 (Hx x) Hin).
  - intros x Hcase. destruct (in_dec string_dec x (set_list (dom D ∩ dom S))) as [Hin|Hin];
      [|by apply (proj2 (Hx x))].
    destruct (proj1 (Hx x) Hin) as (M & T & ws & HM & HT & Hws & HW).
    destruct Hcase as [HS|Hm]; [congruence|].
    rewrite Hm in Hws. simpl in Hws. injection Hws as <-. by rewrite HW, HM.
Qed.

(** Witness: the spec's example. *)
Lemma populate_keeps_unmapped_sheets_witness :
  let run := default (∅, []) (populate_syscad_inputs elements pump_workbook
                                pump_stream_workbook pump_mapping_dict) in
  (forall s : gset string, elements s ≡ₚ elements s) /\
  populate_syscad_inputs elements pump_workbook pump_stream_workbook pump_mapping_dict
    = Some run /\
  (forall x, is_Some (run.1 !! x) <-> is_Some (pump_workbook !! x)) /\
  (forall x, pump_stream_workbook !! x = None \/ default [] (pump_mapping_dict !! x) = [] ->
     run.1 !! x = pump_workbook !! x).
Proof.
  intros run.
  assert (H1 : forall s : gset string, elements s ≡ₚ elements s) by (intros s; reflexivity).
  assert (H2 : populate_syscad_inputs elements pump_workbook pump_stream_workbook
                 pump_mapping_dict = Some run) by (vm_compute; reflexivity).
  split; [exact H1|]. split; [exact H2|].
  destruct run as [wb missing].
  exact (populate_keeps_unmapped_sheets elements pump_workbook pump_stream_workbook
           pump_mapping_dict wb missing H1 H2).
Defined.

(** ** When the pass raises *)










(** ** Running the pass on its own output *)

(** Outside column 3, a value pass either writes a value that does not
    depend on the sheet it runs on, or leaves the cell alone. *)
Lemma populate_pair_overwrite sw pr tr co sc p t r c :
  c <> 3 ->
  exists o, forall ws, cell (populate_pair sw pr tr co sc ws (p, t)) r c
                       = match o with Some v => Some v | None => cell ws r c end.
Proof.
  intros Hc. destruct (decide (pr !! p = Some r /\ c = co + 4)) as [[Hp ->]|Hn].
  - exists (match tr !! t with
            | Some s_row => option_map convert (cell sw s_row sc)
            | None => None end).
    intros ws. unfold populate_pair. rewrite Hp.
    destruct (tr !! t) as [s_row|]; [|done].
    destruct (cell sw s_row sc) as [v|]; destruct (cell sw s_row 2) as [u|]; simpl;
      try destruct (truthy u && _); unfold cell, set_cell;
      repeat (rewrite lookup_insert_ne by (intros [=]; lia)); try rewrite lookup_insert_eq;
      done.
  - exists None. intros ws. apply populate_pair_frame.
    destruct (decide (pr !! p = Some r)); [right; split; [done|] | by left].
    intros ->. by apply Hn.
Qed.

Lemma fold_pairs_overwrite sw pr tr co sc m r c :
  c <> 3 ->
  exists o, forall ws, cell (fold_left (populate_pair sw pr tr co sc) m ws) r c
                       = match o with Some v => Some v | None => cell ws r c end.
Proof.
  intros Hc. induction m as [|[p t] m [o Ho]]; [by exists None|].
  destruct (populate_pair_overwrite sw pr tr co sc p t r c Hc) as [oh Hoh].
  exists (match o with Some v => Some v | None => oh end). intros ws. cbn [fold_left].
  rewrite Ho, Hoh. by destruct o.
Qed.

Lemma populate_columns_overwrite sw stags pr tr m tags r c :
  c <> 3 -> forall co,
  exists o, forall ws, cell (populate_columns sw stags pr tr m co tags ws) r c
                       = match o with Some v => Some v | None => cell ws r c end.
Proof.
  intros Hc. induction tags as [|t tags IH]; intros co; [by exists None|].
  destruct (IH (S co)) as [o Ho].
  destruct (py_in t stags) eqn:Et.
  - destruct (fold_pairs_overwrite sw pr tr co (py_index t stags + 4) m r c Hc) as [oh Hoh].
    exists (match o with Some v => Some v | None => oh end). intros ws.
    cbn [populate_columns]. rewrite Et.
    rewrite Ho, Hoh. by destruct o.
  - exists o. intros ws. cbn [populate_columns]. by rewrite Et.
Qed.

(** A row that holds no parameter is never written. *)
Lemma populate_columns_rowframe sw stags pr tr m co tags ws r c :
  (forall k, pr !! k <> Some r) ->
  cell (populate_columns sw stags pr tr m co tags ws) r c = cell ws r c.
Proof.
  intros Hr. revert co ws. induction tags as [|t tags IH]; intros co ws; simpl; [done|].
  rewrite IH. destruct (py_in t stags); [|done].
  apply fold_pairs_frame. intros p t' _. left. apply Hr.
Qed.

Lemma populate_columns_idem sw stags pr tr m co tags ws :
  NoDup (map fst m) -> rows_injective pr ->
  populate_columns sw stags pr tr m co tags (populate_columns sw stags pr tr m co tags ws)
  = populate_columns sw stags pr tr m co tags ws.
Proof.
  intros Hnd Hinj. apply map_eq. intros [r c].
  change (cell (populate_columns sw stags pr tr m co tags
                  (populate_columns sw stags pr tr m co tags ws)) r c
          = cell (populate_columns sw stags pr tr m co tags ws) r c).
  destruct (decide (c = 3)) as [->|Hc].
  - rewrite !populate_columns_unit by done.
    destruct (existsb _ _); [apply apply_unit_source_idem|done].
  - destruct (populate_columns_overwrite sw stags pr tr m tags r c Hc co) as [o Ho].
    rewrite !Ho. by destruct o.
Qed.

(** One sheet pass, run on its own output, gives it back, unless a
    parameter of the block sits on the header row 3. *)
Lemma populate_sheet_idem (M S M1 : sheet) (m : list (string * string)) :
  populate_sheet M S m = Some M1 -> NoDup (map fst m) ->
  (forall pr, param_rows_of (write_header M (unit_tags S 1)) = Some pr ->
     forall k, pr !! k <> Some 3) ->
  populate_sheet M1 S m = Some M1.
Proof.
  intros H Hnd H3. destruct m as [|it m'].
  { simpl in H. injection H as <-. done. }
  destruct (populate_sheet_inv M S M1 (it :: m') ltac:(done) H) as (pr & tr & Htr & Hpr & HM1).
  assert (Hinj : rows_injective pr) by (by eapply param_rows_of_injective).
  assert (Hrow3 : forall c, cell M1 3 c = cell (write_header M (unit_tags S 1)) 3 c).
  { intros c. rewrite HM1. apply populate_columns_rowframe. by apply H3. }
  assert (Hhead : write_header M1 (unit_tags S 1) = M1).
  { apply map_eq. intros [r c].
    change (cell (write_header M1 (unit_tags S 1)) r c = cell M1 r c).
    destruct (decide (r = 3 /\ 4 <= c < 4 + length (unit_tags S 1))) as [[-> Hc]|Hn].
    - rewrite Hrow3.
      destruct (nth_error (unit_tags S 1) (c - 4)) as [t|] eqn:Et;
        [|apply nth_error_None in Et; lia].
      replace c with (4 + (c - 4)) by lia. unfold write_header.
      by rewrite !(write_header_from_nth _ 4 _ (c - 4) t Et).
    - unfold write_header. apply write_header_from_other. lia. }
  assert (Htags : unit_tags M1 3 = unit_tags (write_header M (unit_tags S 1)) 3).
  { set (N := Nat.max (max_col M1) (max_col (write_header M (unit_tags S 1)))).
    rewrite (unit_tags_bound M1 3 N), (unit_tags_bound (write_header M (unit_tags S 1)) 3 N)
      by lia.
    apply header_values_ext. intros c _. apply Hrow3. }
  assert (Hpr1 : param_rows_of (write_header M1 (unit_tags S 1)) = Some pr).
  { rewrite Hhead, <- Hpr. apply param_rows_of_ext. intros r.
    split; rewrite HM1; apply populate_columns_frame; (lia || (intros; lia)). }
  rewrite populate_sheet_nonempty by done.
  rewrite Htr, Hpr1, Hhead, Htags, HM1. f_equal. by apply populate_columns_idem.
Qed.

Lemma populate_sheets_fixed (stream_wb : workbook)
    (mapping_dict : gmap string (list (string * string))) (names : list string) :
  forall W,
  (forall x, In x names ->
     exists ws, W !! x = Some ws /\
       populate_sheet ws (default ∅ (stream_wb !! x)) (default [] (mapping_dict !! x))
       = Some ws) ->
  populate_sheets stream_wb mapping_dict names W = Some W.
Proof.
  induction names as [|n names IH]; intros W H; simpl; [done|].
  destruct (H n ltac:(by left)) as (ws & Hws & Hp). rewrite Hws. simpl. rewrite Hp.
  rewrite insert_id by done. apply IH. intros x Hx. apply H. by right.
Qed.

(** X7.  Running [populate_syscad_inputs] again on the master workbook it
    returned, with the same streamtable and mapping (Python dicts, so no
    parameter is mapped twice in a sheet), returns the same workbook and
    the same missing list, whatever the set iteration order, provided no
    master sheet has a parameter of its "SysCAD Inputs" block on the
    header row 3 (values written there would change the unit tags read
    by the second run). *)
Theorem populate_syscad_inputs_idempotent (set_list : gset string -> list string)
    (D S : workbook) (mapping_dict : gmap string (list (string * string)))
    (D1 : workbook) (missing : list string) :
  (forall s, set_list s ≡ₚ elements s) ->
  (forall x ms, mapping_dict !! x = Some ms -> NoDup (map fst ms)) ->
  (forall x M T pr, D !! x = Some M -> S !! x = Some T ->
     param_rows_of (write_header M (unit_tags T 1)) = Some pr ->
     forall k, pr !! k <> Some 3) ->
  populate_syscad_inputs set_list D S mapping_dict = Some (D1, missing) ->
  populate_syscad_inputs set_list D1 S mapping_dict = Some (D1, missing).
Proof.
  intros Hperm Hnd H3 H. unfold populate_syscad_inputs in H |- *.
  destruct (populate_sheets S mapping_dict (set_list (dom D ∩ dom S)) D) as [W|] eqn:E;
    [|done].
  injection H as <- <-.
  assert (HNoDup : NoDup (set_list (dom D ∩ dom S)))
    by (rewrite (Hperm _); apply NoDup_elements).
  assert (HIn : forall y, In y (set_list (dom D ∩ dom S)) <-> y ∈ dom D ∩ dom S)
    by (intros y; by rewrite <- list_elem_of_In, (Hperm _), elem_of_elements).
  pose proof (populate_sheets_spec S mapping_dict _ D W E HNoDup) as Hspec.
  assert (Hdom : dom W = dom D).
  { apply set_eq. intros x. rewrite !elem_of_dom.
    destruct (Hspec x) as [Hin Hout].
    destruct (in_dec string_dec x (set_list (dom D ∩ dom S))) as [Hx|Hx];
      [|by rewrite (Hout Hx)].
    destruct (Hin Hx) as (ws & _ & ->).
    apply HIn, elem_of_intersection in Hx as [HD _]. apply elem_of_dom in HD.
    split; [done|by eexists]. }
  rewrite Hdom, populate_sheets_fixed; [done|].
  intros x Hx. destruct (Hspec x) as [Hin _]. destruct (Hin Hx) as (ws & Hws & HW).
  exists ws. split; [done|].
  apply HIn, elem_of_intersection in Hx as [HD HS].
  apply elem_of_dom in HD as [M HM], HS as [T HT].
  rewrite HM in Hws. rewrite HT in Hws |- *. simpl in Hws |- *.
  apply (populate_sheet_idem M T ws _ Hws).
  - destruct (mapping_dict !! x) as [ms|] eqn:Ems; simpl; [by apply (Hnd x ms)|constructor].
  - intros pr Hpr. exact (H3 x M T pr HM HT Hpr).
Qed.

(** Witness: the spec's example, whose parameter lies on row 10. *)
Lemma populate_syscad_inputs_idempotent_witness :
  let run := default (∅, []) (populate_syscad_inputs elements pump_workbook
                                pump_stream_workbook pump_mapping_dict) in
  (forall s : gset string, elements s ≡ₚ elements s) /\
  (forall x ms, pump_mapping_dict !! x = Some ms -> NoDup (map fst ms)) /\
  (forall x M T pr, pump_workbook !! x = Some M -> pump_stream_workbook !! x = Some T ->
     param_rows_of (write_header M (unit_tags T 1)) = Some pr ->
     forall k, pr !! k <> Some 3) /\
  populate_syscad_inputs elements pump_workbook pump_stream_workbook pump_mapping_dict
    = Some run /\
  populate_syscad_inputs elements run.1 pump_stream_workbook pump_mapping_dict = Some run.
Proof.
  intros run.
  assert (H1 : forall s : gset string, elements s ≡ₚ elements s) by (intros s; reflexivity).
  assert (H2 : forall x ms, pump_mapping_dict !! x = Some ms -> NoDup (map fst ms)).
  { intros x ms H. unfold pump_mapping_dict in H.
    destruct (decide (x = "Pump-101")) as [->|Hne].
    - rewrite lookup_insert_eq in H. injection H as <-. simpl. apply NoDup_singleton.
    - rewrite lookup_insert_ne in H by congruence. done. }
  assert (H3 : forall x M T pr, pump_workbook !! x = Some M -> pump_stream_workbook !! x = Some T ->
     param_rows_of (write_header M (unit_tags T 1)) = Some pr ->
     forall k, pr !! k <> Some 3).
  { intros x M T pr HM HT Hpr k. unfold pump_workbook in HM. unfold pump_stream_workbook in HT.
    destruct (decide (x = "Pump-101")) as [->|Hne];
      [|rewrite lookup_insert_ne in HM by congruence; done].
    rewrite lookup_insert_eq in HM, HT. injection HM as <-. injection HT as <-.
    assert (Hpr' : param_rows_of (write_header pump_master (unit_tags pump_stream 1))
                   = Some (<["Flow Rate" := 10]> ∅)) by (vm_compute; reflexivity).
    rewrite Hpr' in Hpr. injection Hpr as <-.
    destruct (decide (k = "Flow Rate")) as [->|Hk].
    - rewrite lookup_insert_eq. congruence.
    - rewrite lookup_insert_ne by congruence. by rewrite lookup_empty. }
  assert (H4 : populate_syscad_inputs elements pump_workbook pump_stream_workbook
                 pump_mapping_dict = Some run) by (vm_compute; reflexivity).
  split; [exact H1|]. split; [exact H2|]. split; [exact H3|]. split; [exact H4|].
  destruct run as [D1 missing].
  exact (populate_syscad_inputs_idempotent elements pump_workbook pump_stream_workbook
           pump_mapping_dict D1 missing H1 H2 H3 H4).
Defined.

(** ** The rounding of line 78 *)




(** ** The select-box loop of the mapping page *)

Lemma widget_key_inj (e p q : string) :
  e +:+ "_" +:+ p = e +:+ "_" +:+ q -> p = q.
Proof.
  induction e as [|a e IH]; simpl; intros H.
  - by injection H.
  - injection H as H. by apply IH.
Qed.

Lemma existsb_eqb_In (k : string) (l : list string) :
  existsb (String.eqb k) l = true <-> In k l.
Proof.
  rewrite existsb_exists. split.
  - intros [y [Hy E]]. apply String.eqb_eq in E. by subst.
  - intros Hk. exists k. split; [done|]. apply String.eqb_refl.
Qed.

Lemma map_params_stuck select equip tl (ps used : list string) m p :
  In (equip +:+ "_" +:+ p) used -> In p ps ->
  map_params select equip tl ps used m = None.
Proof.
  revert used m. induction ps as [|p0 ps IH]; intros used m Hu Hp; [done|].
  simpl. destruct (existsb _ used) eqn:E; [done|].
  destruct Hp as [<-|Hp].
  - apply existsb_eqb_In in Hu. congruence.
  - apply IH; [right; done | done].
Qed.

Lemma str_index_nth (x d : string) (xs : list string) :
  In x xs -> nth (str_index x xs) xs d = x.
Proof.
  induction xs as [|y ys IH]; simpl; [done|].
  destruct (String.eqb x y) eqn:E.
  - apply String.eqb_eq in E. by subst.
  - intros [->|H]; [by rewrite String.eqb_refl in E|]. by apply IH.
Qed.

Lemma map_params_spec select equip tl (ps used : list string) m :
  NoDup ps -> (forall p, In p ps -> ~ In (equip +:+ "_" +:+ p) used) ->
  exists used' m', map_params select equip tl ps used m = Some (used', m') /\
    (forall p, In p ps ->
       let options := skip_choice :: tl in
       let choice := select p options
           (default_index options (default skip_choice (m !! p))) in
       m' !! p = if String.eqb choice skip_choice then None else Some choice) /\
    (forall k, ~ In k ps -> m' !! k = m !! k).
Proof.
  revert used m. induction ps as [|p ps IH]; intros used m Hnd Hfr.
  - exists used, m. simpl. split; [done|]. split; [by intros|done].
  - apply NoDup_cons in Hnd as [Hp Hnd]. rewrite list_elem_of_In in Hp. simpl.
    assert (E : existsb (String.eqb (equip +:+ "_" +:+ p)) used = false).
    { destruct (existsb _ used) eqn:E; [|done].
      apply existsb_eqb_In in E. exfalso. by apply (Hfr p); [left|]. }
    rewrite E.
    set (choice := select p (skip_choice :: tl)
      (default_index (skip_choice :: tl) (default skip_choice (m !! p)))).
    set (m1 := if String.eqb choice skip_choice then delete p m
               else <[p := choice]> m).
    assert (Hm1 : forall k, k <> p -> m1 !! k = m !! k).
    { intros k Hk. subst m1. destruct (String.eqb choice skip_choice).
      - by apply lookup_delete_ne.
      - by apply lookup_insert_ne. }
    destruct (IH ((equip +:+ "_" +:+ p) :: used) m1 Hnd) as [used' [m' [Hrun [Hin Hout]]]].
    { intros q Hq [Hk|Hk].
      - apply widget_key_inj in Hk. subst. contradiction.
      - by apply (Hfr q); [right|]. }
    exists used', m'. split; [exact Hrun|]. split.
    + intros q [<-|Hq]; simpl.
      * rewrite (Hout p Hp). subst m1. fold choice.
        destruct (String.eqb choice skip_choice).
        -- apply lookup_delete_eq.
        -- apply lookup_insert_eq.
      * rewrite (Hin q Hq). simpl. rewrite (Hm1 q); [done|].
        intros ->. contradiction.
    + intros k Hk. rewrite (Hout k); [|intros H; apply Hk; by right].
      apply Hm1. intros ->. apply Hk. by left.
Qed.

(** X9: a parameter name listed twice among the SysCAD inputs of a sheet
    gives two select boxes with the same key [f"{equip}_{p}"], which
    Streamlit refuses: the mapping loop of that sheet fails. *)
Theorem map_params_duplicate_fails select equip tl (ps used : list string) m :
  ~ NoDup ps -> map_params select equip tl ps used m = None.
Proof.
  revert used m. induction ps as [|p ps IH]; intros used m Hnd.
  - exfalso. apply Hnd. constructor.
  - simpl. destruct (existsb _ used) eqn:E; [done|].
    destruct (in_dec string_dec p ps) as [Hp|Hp].
    + apply (map_params_stuck _ _ _ _ _ _ p); [left; done | exact Hp].
    + apply IH. intros H. apply Hnd. apply NoDup_cons_2; [by rewrite list_elem_of_In | exact H].
Qed.

Lemma map_params_duplicate_fails_witness :
  ~ NoDup ["Flow Rate"; "Flow Rate"] /\
  map_params (fun _ o _ => hd skip_choice o) "Pump" ["F1"]
    ["Flow Rate"; "Flow Rate"] [] ∅ = None.
Proof.
  assert (H : ~ NoDup ["Flow Rate"; "Flow Rate"]).
  { intros Hn. apply NoDup_cons in Hn as [Hn _]. apply Hn. by left. }
  split; [exact H|]. apply map_params_duplicate_fails. exact H.
Defined.

(** X10: when the parameter names of a sheet are distinct and no widget
    key is taken yet, the loop succeeds; afterwards each listed parameter
    is either unmapped or mapped to one of the sheet's streamtable tags,
    and the mapping of every other name is left as it was. *)
Theorem map_params_choices_are_tags select equip tl (ps used : list string) m :
  (forall l i, In (select l (skip_choice :: tl) i) (skip_choice :: tl)) ->
  NoDup ps -> (forall p, In p ps -> ~ In (equip +:+ "_" +:+ p) used) ->
  exists used' m', map_params select equip tl ps used m = Some (used', m') /\
    (forall p, In p ps -> m' !! p = None \/ exists t, m' !! p = Some t /\ In t tl) /\
    (forall k, ~ In k ps -> m' !! k = m !! k).
Proof.
  intros Hsel Hnd Hfr.
  destruct (map_params_spec select equip tl ps used m Hnd Hfr)
    as [used' [m' [Hrun [Hin Hout]]]].
  exists used', m'. split; [exact Hrun|]. split; [|exact Hout].
  intros p Hp. rewrite (Hin p Hp). simpl.
  match goal with |- context [select p _ ?i] =>
    pose proof (Hsel p i) as Hc; destruct (String.eqb (select p _ i) skip_choice) eqn:E
  end.
  - by left.
  - right. eexists. split; [reflexivity|].
    destruct Hc as [Hc|Hc]; [|exact Hc].
    rewrite <- Hc, String.eqb_refl in E. discriminate.
Qed.

Lemma map_params_choices_are_tags_witness :
  (forall (l : string) (i : nat),
     In ((fun _ o _ => List.last o skip_choice) l (skip_choice :: ["F1"; "P1"]) i)
        (skip_choice :: ["F1"; "P1"])) /\
  NoDup ["Flow Rate"; "Pressure"] /\
  (forall p, In p ["Flow Rate"; "Pressure"] -> ~ In ("Pump" +:+ "_" +:+ p) []) /\
  exists used' m', map_params (fun _ o _ => List.last o skip_choice) "Pump" ["F1"; "P1"]
      ["Flow Rate"; "Pressure"] [] ∅ = Some (used', m') /\
    (forall p, In p ["Flow Rate"; "Pressure"] ->
       m' !! p = None \/ exists t, m' !! p = Some t /\ In t ["F1"; "P1"]) /\
    (forall k, ~ In k ["Flow Rate"; "Pressure"] ->
       m' !! k = (∅ : gmap string string) !! k).
Proof.
  assert (Hsel : forall (l : string) (i : nat),
     In ((fun _ o _ => List.last o skip_choice) l (skip_choice :: ["F1"; "P1"]) i)
        (skip_choice :: ["F1"; "P1"])).
  { intros l i. simpl. right. right. left. reflexivity. }
  assert (Hnd : NoDup ["Flow Rate"; "Pressure"]).
  { apply NoDup_ListNoDup. repeat constructor; simpl; intuition discriminate. }
  assert (Hfr : forall p, In p ["Flow Rate"; "Pressure"] -> ~ In ("Pump" +:+ "_" +:+ p) []).
  { intros p _ []. }
  split; [exact Hsel|]. split; [exact Hnd|]. split; [exact Hfr|].
  apply map_params_choices_are_tags; [exact Hsel | exact Hnd | exact Hfr].
Defined.

(** X11: when the user leaves every select box at the option it opens on,
    a listed parameter stays mapped to its saved tag exactly when that tag
    is still among the sheet's streamtable tags (and is not the skip
    label); a saved tag that is no longer offered is dropped. *)
Theorem map_params_untouched_keeps_offered equip tl (ps used : list string) m :
  NoDup ps -> (forall p, In p ps -> ~ In (equip +:+ "_" +:+ p) used) ->
  exists used' m',
    map_params (fun _ o i => nth i o skip_choice) equip tl ps used m = Some (used', m') /\
    (forall p t, In p ps ->
       (m' !! p = Some t <-> m !! p = Some t /\ In t tl /\ t <> skip_choice)) /\
    (forall k, ~ In k ps -> m' !! k = m !! k).
Proof.
  intros Hnd Hfr.
  destruct (map_params_spec (fun _ o i => nth i o skip_choice) equip tl ps used m Hnd Hfr)
    as [used' [m' [Hrun [Hin Hout]]]].
  exists used', m'. split; [exact Hrun|]. split; [|exact Hout].
  intros p t Hp. rewrite (Hin p Hp). simpl. unfold default_index.
  destruct (m !! p) as [d|]; simpl.
  - destruct (String.eqb d skip_choice) eqn:Ed.
    + apply String.eqb_eq in Ed. subst d. simpl.
      split; [discriminate|]. intros [[= <-] [_ Hne]]. by destruct Hne.
    + simpl. destruct (existsb (String.eqb d) tl) eqn:Et.
      * apply existsb_eqb_In in Et.
        rewrite (str_index_nth d skip_choice tl Et), Ed.
        split.
        -- intros [= <-]. split; [done|]. split; [done|].
           intros ->. by rewrite String.eqb_refl in Ed.
        -- by intros [[= ->] _].
      * rewrite String.eqb_refl. split; [discriminate|].
        intros [[= <-] [Hin' _]]. apply existsb_eqb_In in Hin'. congruence.
  - split; [discriminate|]. by intros [? _].
Qed.

Lemma map_params_untouched_keeps_offered_witness :
  NoDup ["Flow Rate"; "Pressure"] /\
  (forall p, In p ["Flow Rate"; "Pressure"] -> ~ In ("Pump" +:+ "_" +:+ p) []) /\
  exists used' m',
    map_params (fun _ o i => nth i o skip_choice) "Pump" ["F1"]
      ["Flow Rate"; "Pressure"] [] (<["Pressure" := "P_old"]> (<["Flow Rate" := "F1"]> ∅))
      = Some (used', m') /\
    (forall p t, In p ["Flow Rate"; "Pressure"] ->
       (m' !! p = Some t <->
        (<["Pressure" := "P_old"]> (<["Flow Rate" := "F1"]> ∅) : gmap string string) !! p = Some t
        /\ In t ["F1"] /\ t <> skip_choice)) /\
    (forall k, ~ In k ["Flow Rate"; "Pressure"] ->
       m' !! k = (<["Pressure" := "P_old"]> (<["Flow Rate" := "F1"]> ∅) : gmap string string) !! k).
Proof.
  assert (Hnd : NoDup ["Flow Rate"; "Pressure"]).
  { apply NoDup_ListNoDup. repeat constructor; simpl; intuition discriminate. }
  assert (Hfr : forall p, In p ["Flow Rate"; "Pressure"] -> ~ In ("Pump" +:+ "_" +:+ p) []).
  { intros p _ []. }
  split; [exact Hnd|]. split; [exact Hfr|].
  apply map_params_untouched_keeps_offered; [exact Hnd | exact Hfr].
Defined.
